(** * tinygl: the asset sync driver [tools/compile_assets.py]

    A shallow embedding of [compile_assets] and of the [os.path] functions
    it calls, with the properties of the incremental rebuild decision, the
    extension table and the destination path mapping. *)

From Stdlib Require Import ZArith Lia Ascii String List Bool.
From stdpp Require Import base option list strings gmap.

Local Open Scope Z_scope.
Set Warnings "-register-all".

(** ** Python [str] and POSIX [os.path]

    Path strings are modelled as [string], one [ascii] per byte of the
    encoded path; the separator, the dot and the letters of the recognized
    extensions are single bytes, and [lower] changes [A]..[Z] only.  The
    functions below are the [posixpath] ones the script calls. *)
Module Path.

Definition sep : ascii := "/"%char.
Definition extsep : ascii := "."%char.

Definition is_sep (c : ascii) : bool := Ascii.eqb c sep.
Definition is_dot (c : ascii) : bool := Ascii.eqb c extsep.

(** [str.lower] on one character: [A]..[Z] go to [a]..[z]. *)
Definition lower_char (c : ascii) : ascii :=
  let n := nat_of_ascii c in
  if ((65 <=? n)%nat && (n <=? 90)%nat)%bool then ascii_of_nat (n + 32) else c.

Fixpoint lower (s : string) : string :=
  match s with
  | EmptyString => EmptyString
  | String c s' => String (lower_char c) (lower s')
  end.

Fixpoint has_sep (s : string) : bool :=
  match s with
  | EmptyString => false
  | String c s' => is_sep c || has_sep s'
  end.

Definition startswith_sep (s : string) : bool :=
  match s with
  | String c _ => is_sep c
  | EmptyString => false
  end.

Fixpoint endswith_sep (s : string) : bool :=
  match s with
  | EmptyString => false
  | String c EmptyString => is_sep c
  | String _ s' => endswith_sep s'
  end.

(** [p[:i+1], p[i+1:]] for [i = p.rfind('/')]: the part up to and
    including the last separator, and the rest. *)
Fixpoint rsplit_sep (p : string) : string * string :=
  match p with
  | EmptyString => (EmptyString, EmptyString)
  | String c p' =>
      let '(h, t) := rsplit_sep p' in
      if has_sep p' then (String c h, t)
      else if is_sep c then (String c EmptyString, p')
      else (EmptyString, String c p')
  end.

(** The leading dots of a file name, and what follows them. *)
Fixpoint span_dots (s : string) : string * string :=
  match s with
  | String c s' =>
      if is_dot c then let '(d, r) := span_dots s' in (String c d, r)
      else (EmptyString, s)
  | EmptyString => (EmptyString, EmptyString)
  end.

(** [s[:i], s[i:]] for [i = s.rfind('.')], when there is a dot. *)
Fixpoint rsplit_dot (s : string) : option (string * string) :=
  match s with
  | EmptyString => None
  | String c s' =>
      match rsplit_dot s' with
      | Some (a, b) => Some (String c a, b)
      | None => if is_dot c then Some (EmptyString, s) else None
      end
  end.

(** [os.path.splitext]: the extension starts at the last dot of the last
    path component, provided a character other than a dot comes before
    it in that component; leading dots belong to the root. *)
Definition splitext (p : string) : string * string :=
  let '(h, base) := rsplit_sep p in
  let '(dots, rest) := span_dots base in
  match rsplit_dot rest with
  | Some (a, b) => (h +:+ dots +:+ a, b)
  | None => (p, EmptyString)
  end.

(** [os.path.join(a, b)]. *)
Definition join (a b : string) : string :=
  if startswith_sep b then b
  else if (String.eqb a EmptyString || endswith_sep a)%bool then a +:+ b
  else a +:+ String sep b.

Fixpoint all_sep (s : string) : bool :=
  match s with
  | EmptyString => true
  | String c s' => is_sep c && all_sep s'
  end.

(** [str.rstrip('/')]. *)
Fixpoint rstrip_sep (s : string) : string :=
  match s with
  | EmptyString => EmptyString
  | String c s' =>
      if all_sep s then EmptyString else String c (rstrip_sep s')
  end.

(** [os.path.dirname]. *)
Definition dirname (p : string) : string :=
  let head := fst (rsplit_sep p) in
  if (negb (String.eqb head EmptyString) && negb (all_sep head))%bool
  then rstrip_sep head else head.

(** [str.split('/')]. *)
Fixpoint split (s : string) : list string :=
  match s with
  | EmptyString => [EmptyString]
  | String c s' =>
      if is_sep c then EmptyString :: split s'
      else match split s' with
           | h :: t => String c h :: t
           | [] => [String c EmptyString]
           end
  end.

(** ['/'.join(comps)]. *)
Fixpoint sep_join (comps : list string) : string :=
  match comps with
  | [] => EmptyString
  | [c] => c
  | c :: cs => c +:+ String sep (sep_join cs)
  end.

Definition startswith (pre s : string) : bool := String.prefix pre s.

(** The component loop of [os.path.normpath]: empty and [.] components
    are dropped, [..] removes the component before it where there is
    one to remove. *)
Definition norm_step (initial_slashes : nat) (new_comps : list string)
    (comp : string) : list string :=
  if (String.eqb comp "" || String.eqb comp ".")%bool then new_comps
  else if (negb (String.eqb comp "..")
           || (Nat.eqb initial_slashes 0 && Nat.eqb (length new_comps) 0)
           || (negb (Nat.eqb (length new_comps) 0)
               && String.eqb (List.last new_comps "") ".."))%bool
       then new_comps ++ [comp]
       else removelast new_comps.

Definition initial_slashes (path : string) : nat :=
  if startswith_sep path then
    if (startswith "//" path && negb (startswith "///" path))%bool
    then 2%nat else 1%nat
  else 0%nat.

Definition norm_comps (path : string) : list string :=
  fold_left (norm_step (initial_slashes path)) (split path) [].

(** [os.path.normpath]. *)
Definition normpath (path : string) : string :=
  if String.eqb path "" then "."
  else
    let body := sep_join (norm_comps path) in
    let res := match initial_slashes path with
               | O => body
               | 1%nat => "/" +:+ body
               | _ => "//" +:+ body
               end in
    if String.eqb res "" then "." else res.

(** [os.path.abspath], for the current directory [cwd]. *)
Definition abspath (cwd path : string) : string :=
  normpath (if startswith_sep path then path else join cwd path).

Definition nonempty (s : string) : bool := negb (String.eqb s "").

(** The length of [os.path.commonprefix] of two component lists. *)
Fixpoint common_len (l1 l2 : list string) : nat :=
  match l1, l2 with
  | x :: l1', y :: l2' => if String.eqb x y then S (common_len l1' l2') else O
  | _, _ => O
  end.

(** [os.path.join(a, *p)]. *)
Definition join_all (a : string) (p : list string) : string :=
  fold_left join p a.

(** [os.path.relpath(path, start)]; [None] is the [ValueError] of an
    empty [path]. *)
Definition relpath (cwd path start : string) : option string :=
  if String.eqb path "" then None
  else
    let start_list := List.filter nonempty (split (abspath cwd start)) in
    let path_list := List.filter nonempty (split (abspath cwd path)) in
    let i := common_len start_list path_list in
    let rel_list := repeat ".." (length start_list - i) ++ drop i path_list in
    match rel_list with
    | [] => Some "."
    | a :: p => Some (join_all a p)
    end.

End Path.

(** ** The host: filesystem, console and child processes

    The script reaches its environment through [os.path.exists],
    [os.path.getmtime], [os.makedirs], [os.walk], [subprocess.run] and
    [print].  Their effect on the environment is a parameter of the model;
    every call is recorded in a trace. *)

(** How [subprocess.run] ends: the child exited with a return code, or it
    could not be started (an [OSError] in the parent). *)
Inductive proc_result : Type :=
| Exited (returncode : Z)
| NotStarted.

(** One item of [os.walk]: [(root, dirs, files)]. *)
Definition walk_item : Type := string * list string * list string.

Record Host (World : Type) : Type := {
  (** [os.path.exists(p)] *)
  os_path_exists : World -> string -> bool;
  (** [os.path.getmtime(p)]; [None] when it raises [OSError].  The float
      it returns is modelled as an integer timestamp, compared by [>=]. *)
  os_path_getmtime : World -> string -> option Z;
  (** [os.makedirs(p, exist_ok=True)]; [None] when it raises [OSError]. *)
  os_makedirs : World -> string -> option World;
  (** the items [os.walk(top)] yields *)
  os_walk : World -> string -> list walk_item;
  (** [os.getcwd()], which [os.path.relpath] resolves relative paths by *)
  os_getcwd : string;
  (** [subprocess.run(args)]: the environment the child leaves, and how it
      ended *)
  subprocess_run : World -> list string -> World * proc_result
}.
Arguments os_path_exists {World}.
Arguments os_path_getmtime {World}.
Arguments os_makedirs {World}.
Arguments os_walk {World}.
Arguments os_getcwd {World}.
Arguments subprocess_run {World}.

(** The calls the script makes, in order. *)
Inductive event : Type :=
| EExists (p : string)
| EGetmtime (p : string)
| EMakedirs (p : string)
| EWalk (top : string)
| ERun (args : list string)
| EPrint (line : string).

Inductive exn : Type :=
| OSError
| ValueError
| CalledProcessError (returncode : Z).

Inductive result (A : Type) : Type :=
| Ok (a : A)
| Raise (e : exn).
Arguments Ok {A}.
Arguments Raise {A}.

(** The table built at the top of [compile_assets]. *)
Definition extension_table : list (string * string) :=
  [ (".obj", ".tmodel"); (".fbx", ".tmodel"); (".gltf", ".tmodel");
    (".glb", ".tmodel"); (".png", ".ttex"); (".jpg", ".ttex");
    (".jpeg", ".ttex"); (".tga", ".ttex"); (".bmp", ".ttex") ].

Definition supported_extensions : gmap string string :=
  list_to_map extension_table.

Section Driver.
Context {World : Type} (host : Host World).

(** A computation reads and changes the world, appends to the trace, and
    returns or raises. *)
Definition M (A : Type) : Type := World -> World * list event * result A.

Definition ret {A} (a : A) : M A := fun w => (w, [], Ok a).

Definition bind {A B} (m : M A) (k : A -> M B) : M B :=
  fun w =>
    match m w with
    | (w1, t1, Ok a) => let '(w2, t2, r) := k a w1 in (w2, t1 ++ t2, r)
    | (w1, t1, Raise e) => (w1, t1, Raise e)
    end.

Definition raise {A} (e : exn) : M A := fun w => (w, [], Raise e).

(** [try: m except subprocess.CalledProcessError: h] *)
Definition try_except_called (m : M unit) (h : M unit) : M unit :=
  fun w =>
    match m w with
    | (w1, t1, Raise (CalledProcessError _)) =>
        let '(w2, t2, r) := h w1 in (w2, t1 ++ t2, r)
    | r => r
    end.

Fixpoint for_each {A} (l : list A) (body : A -> M unit) : M unit :=
  match l with
  | [] => ret tt
  | x :: l' => bind (body x) (fun _ => for_each l' body)
  end.

Definition print (line : string) : M unit :=
  fun w => (w, [EPrint line], Ok tt).

Definition path_exists (p : string) : M bool :=
  fun w => (w, [EExists p], Ok (os_path_exists host w p)).

Definition getmtime (p : string) : M Z :=
  fun w => (w, [EGetmtime p],
            match os_path_getmtime host w p with
            | Some t => Ok t
            | None => Raise OSError
            end).

Definition makedirs (p : string) : M unit :=
  fun w => match os_makedirs host w p with
           | Some w' => (w', [EMakedirs p], Ok tt)
           | None => (w, [EMakedirs p], Raise OSError)
           end.

Definition walk (top : string) : M (list walk_item) :=
  fun w => (w, [EWalk top], Ok (os_walk host w top)).

(** [subprocess.run(args, check=True)] *)
Definition run_checked (args : list string) : M unit :=
  fun w => let '(w', r) := subprocess_run host w args in
           (w', [ERun args],
            match r with
            | Exited c => if c =? 0 then Ok tt else Raise (CalledProcessError c)
            | NotStarted => Raise OSError
            end).

Definition relpath (path start : string) : M string :=
  match Path.relpath (os_getcwd host) path start with
  | Some r => ret r
  | None => raise ValueError
  end.

Notation "'let*' x ':=' m 'in' k" := (bind m (fun x => k))
  (at level 10, x name, m at level 100, k at level 200).
Notation "'do' m 'in' k" := (bind m (fun _ => k))
  (at level 10, m at level 100, k at level 200).

Section Compile.
Variables input_dir output_dir compiler_path : string.

(** The body of the inner loop, for one [file] of the item at [root]. *)
Definition process_file (root file : string) : M unit :=
  let ext := Path.lower (snd (Path.splitext file)) in
  match supported_extensions !! ext with
  | None => ret tt
  | Some out_ext =>
      let src_path := Path.join root file in
      let* rel_path := relpath src_path input_dir in
      let dst_path :=
        Path.join output_dir (fst (Path.splitext rel_path) +:+ out_ext) in
      do makedirs (Path.dirname dst_path) in
      let* dst_exists := path_exists dst_path in
      let* need_compile :=
        (if dst_exists : bool then
           let* dst_time := getmtime dst_path in
           let* src_time := getmtime src_path in
           ret (negb (src_time <=? dst_time))
         else ret true) in
      if need_compile : bool then
        let* rel_dst := relpath dst_path output_dir in
        do print ("Compiling: " +:+ rel_path +:+ " -> " +:+ rel_dst) in
        try_except_called
          (run_checked [compiler_path; src_path; dst_path])
          (print ("Failed to compile " +:+ src_path))
      else ret tt
  end.

(** [for file in files: ...] for one item of the walk. *)
Definition process_item (item : walk_item) : M unit :=
  let '(root, _, files) := item in
  for_each files (process_file root).

Definition compile_assets : M unit :=
  let* found := path_exists compiler_path in
  if negb found then
    print ("Error: Compiler not found at " +:+ compiler_path)
  else
    let* items := walk input_dir in
    for_each items process_item.

End Compile.

End Driver.

(** ** A concrete host

    A directory tree with modification times, a clock, and a compiler that
    writes its output file unless the source is empty.  Paths are resolved
    from the root directory, component by component. *)
Module TreeFS.

Inductive node : Type :=
| File (mtime : Z) (content : string)
| Dir (entries : list (string * node)).

Record world : Type := { root : node; clock : Z }.

Definition comps (p : string) : list string :=
  List.filter Path.nonempty (Path.split p).

Fixpoint assoc (name : string) (es : list (string * node)) : option node :=
  match es with
  | [] => None
  | (k, n) :: es' => if String.eqb k name then Some n else assoc name es'
  end.

Fixpoint update (name : string) (n : node) (es : list (string * node))
    : list (string * node) :=
  match es with
  | [] => [(name, n)]
  | (k, m) :: es' =>
      if String.eqb k name then (k, n) :: es' else (k, m) :: update name n es'
  end.

Fixpoint lookup (n : node) (cs : list string) : option node :=
  match cs with
  | [] => Some n
  | c :: cs' =>
      match n with
      | Dir es => match assoc c es with
                  | Some n' => lookup n' cs'
                  | None => None
                  end
      | File _ _ => None
      end
  end.

Fixpoint chain (cs : list string) : node :=
  match cs with
  | [] => Dir []
  | c :: cs' => Dir [(c, chain cs')]
  end.

Fixpoint mkdirs (n : node) (cs : list string) : option node :=
  match n with
  | File _ _ => None
  | Dir es =>
      match cs with
      | [] => Some n
      | c :: cs' =>
          match assoc c es with
          | Some n' =>
              match mkdirs n' cs' with
              | Some n'' => Some (Dir (update c n'' es))
              | None => None
              end
          | None => Some (Dir (update c (chain cs') es))
          end
      end
  end.

Fixpoint write (n : node) (cs : list string) (f : node) : option node :=
  match n, cs with
  | Dir es, [c] =>
      match assoc c es with
      | Some (Dir _) => None
      | _ => Some (Dir (update c f es))
      end
  | Dir es, c :: cs' =>
      match assoc c es with
      | Some n' =>
          match write n' cs' f with
          | Some n'' => Some (Dir (update c n'' es))
          | None => None
          end
      | None => None
      end
  | _, _ => None
  end.

Definition is_dir (e : string * node) : bool :=
  match snd e with Dir _ => true | File _ _ => false end.

Fixpoint walk_node (top : string) (n : node) : list walk_item :=
  match n with
  | File _ _ => []
  | Dir es =>
      (top, map fst (List.filter is_dir es),
       map fst (List.filter (fun e => negb (is_dir e)) es))
      :: flat_map (fun e => walk_node (Path.join top (fst e)) (snd e)) es
  end.

Definition exists_ (w : world) (p : string) : bool :=
  match lookup (root w) (comps p) with Some _ => true | None => false end.

Definition mtime_of (w : world) (p : string) : option Z :=
  match lookup (root w) (comps p) with
  | Some (File t _) => Some t
  | Some (Dir _) => Some 0
  | None => None
  end.

Definition makedirs_ (w : world) (p : string) : option world :=
  if String.eqb p "" then None
  else match mkdirs (root w) (comps p) with
       | Some r => Some {| root := r; clock := clock w |}
       | None => None
       end.

Definition walk_ (w : world) (top : string) : list walk_item :=
  match lookup (root w) (comps top) with
  | Some n => walk_node top n
  | None => []
  end.

(** The compiler: [args] are [compiler src dst]; it fails on a missing or
    empty source and otherwise writes [dst], stamped with the clock. *)
Definition run_ (w : world) (args : list string) : world * proc_result :=
  match args with
  | [compiler; src; dst] =>
      if negb (exists_ w compiler) then (w, NotStarted)
      else match lookup (root w) (comps src) with
           | Some (File _ content) =>
               if String.eqb content "" then (w, Exited 1)
               else match write (root w) (comps dst) (File (clock w) content) with
                    | Some r => ({| root := r; clock := clock w + 1 |}, Exited 0)
                    | None => (w, Exited 2)
                    end
           | _ => (w, Exited 1)
           end
  | _ => (w, Exited 64)
  end.

Definition host : Host world :=
  {| os_path_exists := exists_;
     os_path_getmtime := mtime_of;
     os_makedirs := makedirs_;
     os_walk := walk_;
     os_getcwd := "/";
     subprocess_run := run_ |}.

(** A tree with the compiler at [/bin/ac] and sources under [/in]; the
    source [/in/sub/bad.jpg] is empty, so the compiler fails on it. *)
Definition demo : world :=
  {| root :=
       Dir [ ("bin", Dir [("ac", File 1 "elf")]);
             ("in", Dir [ ("a.png", File 5 "img");
                          ("a.txt", File 5 "notes");
                          ("sub", Dir [ ("bad.jpg", File 2 "");
                                        ("model.OBJ", File 7 "mesh");
                                        (".png", File 1 "dot") ]) ]) ];
     clock := 10 |}.

(** The tree with the contents of its files blanked: what is left is the
    names, the kinds and the modification times. *)
Fixpoint erase (n : node) : node :=
  match n with
  | File t _ => File t ""
  | Dir es => Dir (map (fun e => (fst e, erase (snd e))) es)
  end.

Definition erase_entry (e : string * node) : string * node :=
  (fst e, erase (snd e)).

(** A compiler that copies its source whatever it holds. *)
Definition run_copy (w : world) (args : list string) : world * proc_result :=
  match args with
  | [compiler; src; dst] =>
      if negb (exists_ w compiler) then (w, NotStarted)
      else match lookup (root w) (comps src) with
           | Some (File _ content) =>
               match write (root w) (comps dst) (File (clock w) content) with
               | Some r => ({| root := r; clock := clock w + 1 |}, Exited 0)
               | None => (w, Exited 2)
               end
           | _ => (w, Exited 1)
           end
  | _ => (w, Exited 64)
  end.

Definition host_copy : Host world :=
  {| os_path_exists := exists_;
     os_path_getmtime := mtime_of;
     os_makedirs := makedirs_;
     os_walk := walk_;
     os_getcwd := "/";
     subprocess_run := run_copy |}.

(** Two worlds with the same names, kinds and times, and the same clock. *)
Definition same_shape (w1 w2 : world) : Prop :=
  erase (root w1) = erase (root w2) /\ clock w1 = clock w2.

(** Two trees with the same names and times; [/in/a.jpg] is empty in the
    second.  Both sources map to [/out/a.ttex]. *)
Definition twin_full : world :=
  {| root :=
       Dir [ ("bin", Dir [("ac", File 1 "elf")]);
             ("in", Dir [ ("a.jpg", File 5 "img"); ("a.png", File 5 "img") ]) ];
     clock := 10 |}.

Definition twin_empty : world :=
  {| root :=
       Dir [ ("bin", Dir [("ac", File 1 "elf")]);
             ("in", Dir [ ("a.jpg", File 5 ""); ("a.png", File 5 "img") ]) ];
     clock := 10 |}.

(** A tree whose sources all compile. *)
Definition demo_good : world :=
  {| root :=
       Dir [ ("bin", Dir [("ac", File 1 "elf")]);
             ("in", Dir [ ("a.png", File 5 "img");
                          ("a.txt", File 5 "notes");
                          ("sub", Dir [ ("model.obj", File 7 "mesh") ]) ]) ];
     clock := 10 |}.

Definition demo_good_after : world :=
  fst (fst (compile_assets host "/in" "/out" "/bin/ac" demo_good)).

(** [open(p, 'rb').read()]: the contents of a regular file. *)
Definition read_ (w : world) (p : string) : option string :=
  match lookup (root w) (comps p) with
  | Some (File _ content) => Some content
  | _ => None
  end.

(** [demo] with a regular file where the output directory should be. *)
Definition demo_blocked : world :=
  {| root :=
       Dir [ ("bin", Dir [("ac", File 1 "elf")]);
             ("in", Dir [ ("a.png", File 5 "img");
                          ("a.txt", File 5 "notes");
                          ("sub", Dir [ ("model.OBJ", File 7 "mesh") ]) ]);
             ("out", File 3 "not a directory") ];
     clock := 10 |}.


(** The same checkout before anything is built. *)
Definition repo_bare : world :=
  {| root :=
       Dir [ ("repo",
              Dir [ ("tools", Dir [("compile_assets.py", File 1 "script")]);
                    ("tests",
                     Dir [("assets", Dir [("cube.obj", File 5 "mesh")])]) ]) ];
     clock := 10 |}.

End TreeFS.

(** ** Vocabulary of the statements *)

(** The extension the classification looks up for [file]. *)
Definition file_ext (file : string) : string :=
  Path.lower (snd (Path.splitext file)).

(** [file] passes the [if ext in supported_extensions] test. *)
Definition recognized (file : string) : bool :=
  bool_decide (is_Some (supported_extensions !! file_ext file)).

(** The input extensions of the 3D model formats and of the image formats. *)
Definition model_exts : list string := [".obj"; ".fbx"; ".gltf"; ".glb"].
Definition image_exts : list string := [".png"; ".jpg"; ".jpeg"; ".tga"; ".bmp"].

(** The source and destination paths [process_file] computes for a file,
    given the relative path and the mapped extension. *)
Definition src_path_of (root file : string) : string := Path.join root file.

Definition dst_path_of (output_dir rel_path out_ext : string) : string :=
  Path.join output_dir (fst (Path.splitext rel_path) +:+ out_ext).

(** The destination is stale in [w]: it does not exist, or it is older than
    the source. *)
Definition stale {World} (host : Host World) (w : World) (src dst : string)
    : Prop :=
  os_path_exists host w dst = false \/
  exists dst_time src_time,
    os_path_getmtime host w dst = Some dst_time /\
    os_path_getmtime host w src = Some src_time /\
    dst_time < src_time.

(** The destination is up to date in [w]: it exists and is not older than
    the source. *)
Definition up_to_date {World} (host : Host World) (w : World) (src dst : string)
    : Prop :=
  os_path_exists host w dst = true /\
  exists dst_time src_time,
    os_path_getmtime host w dst = Some dst_time /\
    os_path_getmtime host w src = Some src_time /\
    dst_time >= src_time.

(** The two lines the script prints about a file. *)
Definition compiling_line (rel_path rel_dst : string) : string :=
  "Compiling: " +:+ rel_path +:+ " -> " +:+ rel_dst.

Definition failed_line (src_path : string) : string :=
  "Failed to compile " +:+ src_path.

(** The call is a compiler run. *)
Definition is_run (e : event) : bool :=
  match e with ERun _ => true | _ => false end.

(** The call prints a line. *)
Definition is_print (e : event) : bool :=
  match e with EPrint _ => true | _ => false end.

(** The call prints a compiling line. *)
Definition is_compiling (e : event) : bool :=
  match e with EPrint line => String.prefix "Compiling: " line | _ => false end.

(** Every recognized file of [items] is settled in [w]: its destination
    directory is there already, so that making it changes nothing, and its
    destination is up to date. *)
Definition settled {World} (host : Host World) (input_dir output_dir : string)
    (w : World) (items : list walk_item) : Prop :=
  forall root dirs files file out_ext,
    (root, dirs, files) ∈ items ->
    file ∈ files ->
    supported_extensions !! file_ext file = Some out_ext ->
    exists rel,
      Path.relpath (os_getcwd host) (src_path_of root file) input_dir = Some rel /\
      os_makedirs host w (Path.dirname (dst_path_of output_dir rel out_ext))
      = Some w /\
      up_to_date host w (src_path_of root file)
        (dst_path_of output_dir rel out_ext).

(** No compiler run and no compiling line. *)
Definition quiet (tr : list event) : Prop :=
  forall e, e ∈ tr -> is_run e = false /\ is_compiling e = false.

(** The host that lists, in every directory of the walk, only the files
    the classification recognizes. *)
Definition only_recognized {World} (host : Host World) : Host World :=
  {| os_path_exists := os_path_exists host;
     os_path_getmtime := os_path_getmtime host;
     os_makedirs := os_makedirs host;
     os_walk := fun w top =>
       map (fun item : walk_item =>
              let '(root, dirs, files) := item in
              (root, dirs, List.filter recognized files))
           (os_walk host w top);
     os_getcwd := os_getcwd host;
     subprocess_run := subprocess_run host |}.

(** The calls of the staleness check: the directory creation, the
    existence query and, when the destination exists, the two time
    queries. *)
Definition check_events (src dst : string) (times : bool) : list event :=
  [EMakedirs (Path.dirname dst); EExists dst]
  ++ (if times then [EGetmtime dst; EGetmtime src] else []).

(** The calls of a compilation that exits with return code [c]. *)
Definition run_events (compiler_path rel rel_dst src dst : string) (c : Z)
    : list event :=
  [EPrint (compiling_line rel rel_dst); ERun [compiler_path; src; dst]]
  ++ (if c =? 0 then [] else [EPrint (failed_line src)]).

(** What the compile branch of an iteration does from [w1], after the
    calls [pre]: the compiling line, the run, the failure line when the
    return code is not zero. *)
Definition compile_branch {World} (host : Host World) (compiler_path : string)
    (pre : list event) (rel rel_dst src dst : string) (w1 : World)
    : World * list event * result unit :=
  let args := [compiler_path; src; dst] in
  let '(w2, r) := subprocess_run host w1 args in
  match r with
  | Exited c =>
      if c =? 0
      then (w2, pre ++ [EPrint (compiling_line rel rel_dst); ERun args], Ok tt)
      else (w2, pre ++ [EPrint (compiling_line rel rel_dst); ERun args;
                        EPrint (failed_line src)], Ok tt)
  | NotStarted =>
      (w2, pre ++ [EPrint (compiling_line rel rel_dst); ERun args],
       Raise OSError)
  end.









(** Two hosts agree, through a relation [R] between their worlds, on
    everything the script asks: existence, modification times, the walk,
    the current directory, whether a directory creation succeeds, and how
    a compiler run ends; directory creations and runs keep the worlds
    related. *)
Record agree {W1 W2 : Type} (h1 : Host W1) (h2 : Host W2)
    (R : W1 -> W2 -> Prop) : Prop := {
  agree_cwd : os_getcwd h1 = os_getcwd h2;
  agree_exists : forall w1 w2 p, R w1 w2 ->
    os_path_exists h1 w1 p = os_path_exists h2 w2 p;
  agree_getmtime : forall w1 w2 p, R w1 w2 ->
    os_path_getmtime h1 w1 p = os_path_getmtime h2 w2 p;
  agree_walk : forall w1 w2 top, R w1 w2 ->
    os_walk h1 w1 top = os_walk h2 w2 top;
  agree_makedirs : forall w1 w2 p, R w1 w2 ->
    match os_makedirs h1 w1 p, os_makedirs h2 w2 p with
    | Some a, Some b => R a b
    | None, None => True
    | _, _ => False
    end;
  agree_run : forall w1 w2 args, R w1 w2 ->
    snd (subprocess_run h1 w1 args) = snd (subprocess_run h2 w2 args) /\
    R (fst (subprocess_run h1 w1 args)) (fst (subprocess_run h2 w2 args))
}.

(** Two computations make the same calls and end the same way from
    related worlds, and leave related worlds. *)
Definition same_behaviour {W1 W2 A : Type} (R : W1 -> W2 -> Prop)
    (m1 : M (World := W1) A) (m2 : M (World := W2) A) : Prop :=
  forall w1 w2, R w1 w2 ->
    snd (fst (m1 w1)) = snd (fst (m2 w2)) /\
    snd (m1 w1) = snd (m2 w2) /\
    R (fst (fst (m1 w1))) (fst (fst (m2 w2))).

(** ** The script entry point

    The [__main__] block: the paths are derived from the location of the
    script, [script_file] being its [__file__]. *)
Definition main {World} (host : Host World) (script_file : string) : M unit :=
  let script_dir := Path.dirname (Path.abspath (os_getcwd host) script_file) in
  let root_dir := Path.dirname script_dir in
  let compiler :=
    Path.join_all root_dir
      ["build"; "tools"; "asset_compiler"; "tinygl_ac.exe"] in
  bind (path_exists host compiler) (fun found =>
    let compiler :=
      if negb found
      then Path.join_all root_dir ["build"; "tools"; "asset_compiler"; "tinygl_ac"]
      else compiler in
    let input_assets := Path.join_all root_dir ["tests"; "assets"] in
    let output_assets := Path.join_all root_dir ["build"; "tests"; "assets"] in
    compile_assets host input_assets output_assets compiler).

(** The directory two levels above the script, and the default paths
    below it. *)
Definition root_dir_of (cwd script_file : string) : string :=
  Path.dirname (Path.dirname (Path.abspath cwd script_file)).

Definition compiler_exe (root_dir : string) : string :=
  Path.join_all root_dir ["build"; "tools"; "asset_compiler"; "tinygl_ac.exe"].

Definition compiler_plain (root_dir : string) : string :=
  Path.join_all root_dir ["build"; "tools"; "asset_compiler"; "tinygl_ac"].

Definition default_input (root_dir : string) : string :=
  Path.join_all root_dir ["tests"; "assets"].

Definition default_output (root_dir : string) : string :=
  Path.join_all root_dir ["build"; "tests"; "assets"].

(** ** [hashlib.md5]

    The MD5 function of RFC 1321 on byte strings, as [get_hash] uses it:
    one [update] with the whole buffer, then [hexdigest]. *)
Module MD5.

Definition mask32 (x : Z) : Z := Z.land x 0xffffffff.

Definition rotl32 (x c : Z) : Z :=
  mask32 (Z.lor (Z.shiftl x c) (Z.shiftr x (32 - c))).

(** The per-round shift amounts and the sine table. *)
Definition shifts : list Z :=
  [ 7; 12; 17; 22; 7; 12; 17; 22; 7; 12; 17; 22; 7; 12; 17; 22;
    5; 9; 14; 20; 5; 9; 14; 20; 5; 9; 14; 20; 5; 9; 14; 20;
    4; 11; 16; 23; 4; 11; 16; 23; 4; 11; 16; 23; 4; 11; 16; 23;
    6; 10; 15; 21; 6; 10; 15; 21; 6; 10; 15; 21; 6; 10; 15; 21 ].

Definition sines : list Z :=
  [
    0xd76aa478; 0xe8c7b756; 0x242070db; 0xc1bdceee;
    0xf57c0faf; 0x4787c62a; 0xa8304613; 0xfd469501;
    0x698098d8; 0x8b44f7af; 0xffff5bb1; 0x895cd7be;
    0x6b901122; 0xfd987193; 0xa679438e; 0x49b40821;
    0xf61e2562; 0xc040b340; 0x265e5a51; 0xe9b6c7aa;
    0xd62f105d; 0x02441453; 0xd8a1e681; 0xe7d3fbc8;
    0x21e1cde6; 0xc33707d6; 0xf4d50d87; 0x455a14ed;
    0xa9e3e905; 0xfcefa3f8; 0x676f02d9; 0x8d2a4c8a;
    0xfffa3942; 0x8771f681; 0x6d9d6122; 0xfde5380c;
    0xa4beea44; 0x4bdecfa9; 0xf6bb4b60; 0xbebfbc70;
    0x289b7ec6; 0xeaa127fa; 0xd4ef3085; 0x04881d05;
    0xd9d4d039; 0xe6db99e5; 0x1fa27cf8; 0xc4ac5665;
    0xf4292244; 0x432aff97; 0xab9423a7; 0xfc93a039;
    0x655b59c3; 0x8f0ccc92; 0xffeff47d; 0x85845dd1;
    0x6fa87e4f; 0xfe2ce6e0; 0xa3014314; 0x4e0811a1;
    0xf7537e82; 0xbd3af235; 0x2ad7d2bb; 0xeb86d391 ].

Record state : Type := { sa : Z; sb : Z; sc : Z; sd : Z }.

Definition init : state :=
  {| sa := 0x67452301; sb := 0xefcdab89; sc := 0x98badcfe; sd := 0x10325476 |}.

Definition bytes_of (s : string) : list Z :=
  map (fun c => Z.of_nat (nat_of_ascii c)) (list_ascii_of_string s).

(** The message followed by [0x80], zeros up to 56 modulo 64, and the bit
    length on eight bytes, least significant first. *)
Definition le_bytes (n : nat) (x : Z) : list Z :=
  map (fun i => Z.land (Z.shiftr x (8 * Z.of_nat i)) 0xff) (seq 0 n).

Definition pad (msg : list Z) : list Z :=
  let len := Z.of_nat (length msg) in
  let zeros := Z.to_nat ((55 - len) mod 64) in
  msg ++ [0x80] ++ repeat 0 zeros ++ le_bytes 8 (Z.land (8 * len) 0xffffffffffffffff).

(** Sixteen little-endian words of a 64-byte block. *)
Fixpoint words (block : list Z) (n : nat) : list Z :=
  match n with
  | O => []
  | S n' =>
      match block with
      | b0 :: b1 :: b2 :: b3 :: rest =>
          (b0 + Z.shiftl b1 8 + Z.shiftl b2 16 + Z.shiftl b3 24) :: words rest n'
      | _ => []
      end
  end.

Definition round (m : list Z) (st : state) (i : nat) : state :=
  let a := sa st in let b := sb st in let c := sc st in let d := sd st in
  let iz := Z.of_nat i in
  let '(f, g) :=
    if iz <? 16 then
      (Z.lor (Z.land b c) (Z.land (Z.lxor b 0xffffffff) d), iz)
    else if iz <? 32 then
      (Z.lor (Z.land d b) (Z.land (Z.lxor d 0xffffffff) c), (5 * iz + 1) mod 16)
    else if iz <? 48 then
      (Z.lxor (Z.lxor b c) d, (3 * iz + 5) mod 16)
    else
      (Z.lxor c (Z.lor b (Z.lxor d 0xffffffff)), (7 * iz) mod 16) in
  let f' := mask32 (f + a + nth i sines 0 + nth (Z.to_nat g) m 0) in
  {| sa := d; sd := c; sc := b;
     sb := mask32 (b + rotl32 f' (nth i shifts 0)) |}.

Definition block_step (st : state) (block : list Z) : state :=
  let m := words block 16 in
  let st' := fold_left (round m) (seq 0 64) st in
  {| sa := mask32 (sa st + sa st'); sb := mask32 (sb st + sb st');
     sc := mask32 (sc st + sc st'); sd := mask32 (sd st + sd st') |}.

Fixpoint blocks (fuel : nat) (bytes : list Z) : list (list Z) :=
  match fuel with
  | O => []
  | S fuel' =>
      match bytes with
      | [] => []
      | _ => take 64 bytes :: blocks fuel' (drop 64 bytes)
      end
  end.

Definition digest_state (msg : list Z) : state :=
  let padded := pad msg in
  fold_left block_step (blocks (length padded) padded) init.

Definition hex_digit (n : Z) : ascii :=
  nth (Z.to_nat n) (list_ascii_of_string "0123456789abcdef") "0"%char.

Definition hex_byte (b : Z) : list ascii := [hex_digit (b / 16); hex_digit (b mod 16)].

Definition digest (msg : list Z) : list Z :=
  let st := digest_state msg in
  le_bytes 4 (sa st) ++ le_bytes 4 (sb st) ++ le_bytes 4 (sc st) ++ le_bytes 4 (sd st).

Definition hexdigest (msg : list Z) : string :=
  string_of_list_ascii (flat_map hex_byte (digest msg)).

End MD5.

(** [get_hash]: the MD5 hex digest of the whole contents of the file.
    [read_file w p] is [open(p, 'rb').read()], [None] when it raises
    [OSError]. *)
Definition get_hash {World} (read_file : World -> string -> option string)
    (w : World) (file_path : string) : result string :=
  match read_file w file_path with
  | Some buf => Ok (MD5.hexdigest (MD5.bytes_of buf))
  | None => Raise OSError
  end.


(** A string made of dots only. *)
Fixpoint all_dots (s : string) : bool :=
  match s with
  | EmptyString => true
  | String c s' => Path.is_dot c && all_dots s'
  end.

Fixpoint has_dot (s : string) : bool :=
  match s with
  | EmptyString => false
  | String c s' => Path.is_dot c || has_dot s'
  end.

(** An extension as the table has them: a dot, then characters that are
    neither a dot nor a separator. *)
Definition ext_shape (e : string) : bool :=
  match e with
  | String c r => Path.is_dot c && negb (has_dot r) && negb (Path.has_sep r)
  | EmptyString => false
  end.

(** The call prints a failure line. *)
Definition is_failed (e : event) : bool :=
  match e with
  | EPrint line => String.prefix "Failed to compile " line
  | _ => false
  end.

(** The number of calls of a kind in a trace. *)
Definition count (p : event -> bool) (tr : list event) : nat :=
  length (List.filter p tr).

(** As many compiling lines as compiler runs, and no more failure lines. *)
Definition balanced (tr : list event) : Prop :=
  count is_compiling tr = count is_run tr /\
  (count is_failed tr <= count is_run tr)%nat.

(** ** Properties of the path functions *)
Module PathFacts.
Import Path.

Lemma is_sep_lower_char (c : ascii) : is_sep (lower_char c) = is_sep c.
Proof. destruct c as [[] [] [] [] [] [] [] []]; reflexivity. Qed.

Lemma is_dot_lower_char (c : ascii) : is_dot (lower_char c) = is_dot c.
Proof. destruct c as [[] [] [] [] [] [] [] []]; reflexivity. Qed.


Lemma has_sep_lower (s : string) : has_sep (lower s) = has_sep s.
Proof.
  induction s as [|c s IH]; simpl; [reflexivity|].
  now rewrite is_sep_lower_char, IH.
Qed.





Lemma append_empty (a b : string) : a +:+ b = "" -> a = "" /\ b = "".
Proof. destruct a; simpl; [tauto | discriminate]. Qed.

Lemma join_nonempty (a b : string) : b <> "" -> join a b <> "".
Proof.
  intros Hb. unfold join.
  destruct (startswith_sep b); [exact Hb|].
  destruct (_ || _)%bool; intros H; apply append_empty in H as [_ H];
    [contradiction | discriminate].
Qed.

(** [relpath] raises on the empty path only. *)
Lemma relpath_some (cwd path start : string) :
  path <> "" -> exists r, relpath cwd path start = Some r.
Proof.
  intros H. unfold relpath.
  destruct (String.eqb path "") eqn:E.
  - apply String.eqb_eq in E. contradiction.
  - destruct (_ ++ _); eauto.
Qed.

End PathFacts.

(** ** Relative paths of walked files *)
Module RelFacts.
Import Path.







Lemma append_assoc (a b c : string) : (a +:+ b) +:+ c = a +:+ (b +:+ c).
Proof.
  induction a as [|x a IH]; [reflexivity|].
  change (String x ((a +:+ b) +:+ c) = String x (a +:+ (b +:+ c))).
  now rewrite IH.
Qed.

Lemma append_nil_r (a : string) : a +:+ "" = a.
Proof.
  induction a as [|x a IH]; [reflexivity|].
  change (String x (a +:+ "") = String x a). now rewrite IH.
Qed.



























Lemma sep_join_cons (a x : string) (xs : list string) :
  sep_join (a :: x :: xs) = a +:+ String sep (sep_join (x :: xs)).
Proof. reflexivity. Qed.




Lemma has_sep_app (a b : string) : has_sep (a +:+ b) = (has_sep a || has_sep b)%bool.
Proof.
  induction a as [|c a IH]; [reflexivity|].
  change (has_sep (String c (a +:+ b)) = (has_sep (String c a) || has_sep b)%bool).
  simpl. rewrite IH. now rewrite orb_assoc.
Qed.

Lemma rsplit_sep_free (f : string) : has_sep f = false -> rsplit_sep f = ("", f).
Proof.
  induction f as [|c f IH]; [reflexivity|]. simpl.
  intros H. apply orb_false_iff in H as [Hc Hf].
  now rewrite (IH Hf), Hf, Hc.
Qed.

Lemma rsplit_sep_dir (h f : string) :
  has_sep f = false ->
  rsplit_sep (h +:+ String sep f) = (h +:+ String sep "", f).
Proof.
  intros Hf. induction h as [|c h IH].
  - change (rsplit_sep (String sep f) = (String sep "", f)).
    simpl. now rewrite (rsplit_sep_free f Hf), Hf.
  - change (rsplit_sep (String c (h +:+ String sep f))
            = (String c (h +:+ String sep ""), f)).
    simpl. rewrite IH, has_sep_app. simpl.
    now rewrite orb_true_r.
Qed.

(** [splitext] works on the last component only. *)
Lemma splitext_dir (h f : string) :
  has_sep f = false ->
  splitext (h +:+ String sep f)
  = (h +:+ String sep (fst (splitext f)), snd (splitext f)).
Proof.
  intros Hf. unfold splitext.
  rewrite (rsplit_sep_dir h f Hf), (rsplit_sep_free f Hf).
  destruct (span_dots f) as [dots rest].
  destruct (rsplit_dot rest) as [[a b]|]; simpl; [|reflexivity].
  rewrite append_assoc. reflexivity.
Qed.

Lemma rsplit_sep_cat (p : string) : fst (rsplit_sep p) +:+ snd (rsplit_sep p) = p.
Proof.
  induction p as [|c p IH]; [reflexivity|]. simpl.
  destruct (rsplit_sep p) as [h t]. simpl in IH.
  destruct (has_sep p); [|destruct (is_sep c)]; simpl.
  - change (String c (h +:+ t) = String c p). now rewrite IH.
  - reflexivity.
  - reflexivity.
Qed.

Lemma span_dots_cat (s : string) : fst (span_dots s) +:+ snd (span_dots s) = s.
Proof.
  induction s as [|c s IH]; [reflexivity|]. simpl.
  destruct (is_dot c); [|reflexivity].
  destruct (span_dots s) as [d r]. simpl in *.
  change (String c (d +:+ r) = String c s). now rewrite IH.
Qed.

Lemma rsplit_dot_cat (s a b : string) : rsplit_dot s = Some (a, b) -> a +:+ b = s.
Proof.
  revert a b. induction s as [|c s IH]; intros a b; simpl; [discriminate|].
  destruct (rsplit_dot s) as [[a' b']|].
  - intros [= <- <-]. change (String c (a' +:+ b') = String c s).
    now rewrite (IH a' b' eq_refl).
  - destruct (is_dot c); [|discriminate]. intros [= <- <-]. reflexivity.
Qed.

(** The two halves of [splitext] make up the path. *)
Lemma splitext_cat (p : string) : fst (splitext p) +:+ snd (splitext p) = p.
Proof.
  unfold splitext.
  pose proof (rsplit_sep_cat p) as Hp.
  destruct (rsplit_sep p) as [h base]. simpl in Hp.
  pose proof (span_dots_cat base) as Hb.
  destruct (span_dots base) as [dots rest]. simpl in Hb.
  destruct (rsplit_dot rest) as [[a b]|] eqn:E; simpl.
  - apply rsplit_dot_cat in E. rewrite !append_assoc, E, Hb. exact Hp.
  - apply append_nil_r.
Qed.

Lemma sep_join_snoc (d : string) (ds : list string) (f : string) :
  sep_join ((d :: ds) ++ [f]) = sep_join (d :: ds) +:+ String sep f.
Proof.
  revert d. induction ds as [|x xs IH]; intros d; [reflexivity|].
  change (sep_join ((d :: x :: xs) ++ [f]))
    with (d +:+ String sep (sep_join ((x :: xs) ++ [f]))).
  rewrite IH, sep_join_cons, append_assoc. reflexivity.
Qed.

(** Replacing the extension of the relative path replaces it in the file
    name and keeps the directories. *)
Lemma dst_path_mirrors (output_dir : string) (ds : list string)
    (f out_ext : string) :
  has_sep f = false ->
  dst_path_of output_dir (sep_join (ds ++ [f])) out_ext
  = join output_dir (sep_join (ds ++ [fst (splitext f) +:+ out_ext])).
Proof.
  intros Hf. unfold dst_path_of. f_equal.
  destruct ds as [|d ds]; [reflexivity|].
  rewrite !sep_join_snoc, (splitext_dir _ f Hf). simpl fst.
  now rewrite append_assoc.
Qed.

















End RelFacts.

(** ** Properties of the concrete host *)
Module TreeFSFacts.
Import TreeFS.

Lemma erase_dir (es : list (string * node)) :
  erase (Dir es) = Dir (map erase_entry es).
Proof. reflexivity. Qed.

Lemma assoc_erase (name : string) (es : list (string * node)) :
  assoc name (map erase_entry es) = option_map erase (assoc name es).
Proof.
  induction es as [|[k n] es IH]; [reflexivity|]. simpl.
  destruct (String.eqb k name); [reflexivity | exact IH].
Qed.

Lemma update_erase (name : string) (n : node) (es : list (string * node)) :
  update name (erase n) (map erase_entry es) = map erase_entry (update name n es).
Proof.
  induction es as [|[k m] es IH]; [reflexivity|]. simpl.
  destruct (String.eqb k name); [reflexivity|]. simpl. now rewrite IH.
Qed.

Lemma lookup_erase (cs : list string) (n : node) :
  lookup (erase n) cs = option_map erase (lookup n cs).
Proof.
  revert n. induction cs as [|c cs IH]; intros n; [reflexivity|].
  destruct n as [t content|es]; [reflexivity|].
  rewrite erase_dir. simpl. rewrite assoc_erase.
  destruct (assoc c es) as [n'|]; simpl; [apply IH | reflexivity].
Qed.

Lemma erase_chain (cs : list string) : erase (chain cs) = chain cs.
Proof.
  induction cs as [|c cs IH]; [reflexivity|].
  simpl. unfold erase_entry. simpl. now rewrite IH.
Qed.

Lemma mkdirs_erase (cs : list string) (n : node) :
  mkdirs (erase n) cs = option_map erase (mkdirs n cs).
Proof.
  revert n. induction cs as [|c cs IH]; intros n.
  - destruct n; reflexivity.
  - destruct n as [t content|es]; [reflexivity|].
    rewrite erase_dir. simpl. rewrite assoc_erase.
    destruct (assoc c es) as [n'|]; simpl.
    + rewrite IH. destruct (mkdirs n' cs) as [n''|]; simpl; [|reflexivity].
      now rewrite update_erase.
    + rewrite <- (erase_chain cs) at 1. now rewrite update_erase.
Qed.

Lemma write_erase (cs : list string) (n f : node) :
  write (erase n) cs (erase f) = option_map erase (write n cs f).
Proof.
  revert n. induction cs as [|c cs IH]; intros n.
  - destruct n; reflexivity.
  - destruct n as [t content|es]; [reflexivity|].
    rewrite erase_dir. destruct cs as [|c' cs'].
    + simpl. rewrite assoc_erase.
      destruct (assoc c es) as [[t content|es']|]; simpl;
        try reflexivity; now rewrite update_erase.
    + change (write (Dir (map erase_entry es)) (c :: c' :: cs') (erase f))
        with (match assoc c (map erase_entry es) with
              | Some n' =>
                  match write n' (c' :: cs') (erase f) with
                  | Some n'' => Some (Dir (update c n'' (map erase_entry es)))
                  | None => None
                  end
              | None => None
              end).
      change (write (Dir es) (c :: c' :: cs') f)
        with (match assoc c es with
              | Some n' =>
                  match write n' (c' :: cs') f with
                  | Some n'' => Some (Dir (update c n'' es))
                  | None => None
                  end
              | None => None
              end).
      rewrite assoc_erase.
      destruct (assoc c es) as [n'|]; [|reflexivity].
      cbn [option_map]. rewrite IH.
      destruct (write n' (c' :: cs') f) as [n''|]; [|reflexivity].
      cbn [option_map]. rewrite erase_dir. now rewrite update_erase.
Qed.

Lemma node_ind_nested (P : node -> Prop) :
  (forall t c, P (File t c)) ->
  (forall es, Forall (fun e => P (snd e)) es -> P (Dir es)) ->
  forall n, P n.
Proof.
  intros HF HD. fix IH 1. intros [t c|es]; [apply HF|].
  apply HD. induction es as [|e es IHes]; constructor; [apply IH | exact IHes].
Qed.

Lemma is_dir_erase (e : string * node) : is_dir (erase_entry e) = is_dir e.
Proof. destruct e as [k [t c|es]]; reflexivity. Qed.

Lemma names_erase (keep : string * node -> bool) (es : list (string * node)) :
  (forall e, keep (erase_entry e) = keep e) ->
  map fst (List.filter keep (map erase_entry es)) = map fst (List.filter keep es).
Proof.
  intros Hk. induction es as [|e es IH]; [reflexivity|]. simpl.
  rewrite Hk. destruct (keep e); simpl; now rewrite IH.
Qed.

Lemma walk_node_erase (n : node) :
  forall top, walk_node top (erase n) = walk_node top n.
Proof.
  induction n as [t c|es IH] using node_ind_nested; intros top; [reflexivity|].
  rewrite erase_dir. simpl. f_equal.
  - f_equal; [f_equal|].
    + apply names_erase, is_dir_erase.
    + apply names_erase. intros e. now rewrite is_dir_erase.
  - induction IH as [|e es He Hes IHes]; [reflexivity|].
    simpl. now rewrite He, IHes.
Qed.

Lemma lookup_same (r1 r2 : node) (cs : list string) :
  erase r1 = erase r2 ->
  option_map erase (lookup r1 cs) = option_map erase (lookup r2 cs).
Proof. intros H. now rewrite <- !lookup_erase, H. Qed.

Lemma agree_copy : agree host_copy host_copy same_shape.
Proof.
  split.
  - reflexivity.
  - intros w1 w2 p [Hr _]. simpl. unfold exists_.
    pose proof (lookup_same _ _ (comps p) Hr) as H.
    destruct (lookup (root w1) (comps p)), (lookup (root w2) (comps p));
      simpl in H; congruence.
  - intros w1 w2 p [Hr _]. simpl. unfold mtime_of.
    pose proof (lookup_same _ _ (comps p) Hr) as H.
    destruct (lookup (root w1) (comps p)) as [[t1 c1|es1]|],
             (lookup (root w2) (comps p)) as [[t2 c2|es2]|];
      simpl in H; congruence.
  - intros w1 w2 top [Hr _]. simpl. unfold walk_.
    pose proof (lookup_same _ _ (comps top) Hr) as H.
    destruct (lookup (root w1) (comps top)) as [n1|],
             (lookup (root w2) (comps top)) as [n2|];
      simpl in H; try congruence.
    injection H as H.
    now rewrite <- (walk_node_erase n1), H, walk_node_erase.
  - intros w1 w2 p [Hr Hc]. simpl. unfold makedirs_.
    destruct (String.eqb p ""); [exact I|].
    assert (H : option_map erase (mkdirs (root w1) (comps p))
                = option_map erase (mkdirs (root w2) (comps p)))
      by (now rewrite <- !mkdirs_erase, Hr).
    destruct (mkdirs (root w1) (comps p)), (mkdirs (root w2) (comps p));
      simpl in H; try discriminate; [|exact I].
    injection H as H. split; [exact H | exact Hc].
  - intros w1 w2 args [Hr Hc]. simpl. unfold run_copy.
    destruct args as [|compiler [|src [|dst [|x args]]]];
      try (split; [reflexivity | split; assumption]).
    assert (He : exists_ w1 compiler = exists_ w2 compiler).
    { unfold exists_.
      pose proof (lookup_same _ _ (comps compiler) Hr) as H.
      destruct (lookup (root w1) (comps compiler)),
               (lookup (root w2) (comps compiler)); simpl in H; congruence. }
    rewrite He.
    destruct (negb (exists_ w2 compiler));
      [split; [reflexivity | split; assumption]|].
    pose proof (lookup_same _ _ (comps src) Hr) as Hs.
    destruct (lookup (root w1) (comps src)) as [[t1 c1|es1]|],
             (lookup (root w2) (comps src)) as [[t2 c2|es2]|];
      simpl in Hs; try discriminate;
      try (split; [reflexivity | split; assumption]).
    assert (Hw : option_map erase (write (root w1) (comps dst) (File (clock w1) c1))
                 = option_map erase (write (root w2) (comps dst) (File (clock w2) c2))).
    { rewrite <- !write_erase, Hr, Hc. reflexivity. }
    destruct (write (root w1) (comps dst) (File (clock w1) c1)),
             (write (root w2) (comps dst) (File (clock w2) c2));
      simpl in Hw; try discriminate.
    + injection Hw as Hw. split; [reflexivity|].
      split; simpl; [exact Hw | now rewrite Hc].
    + split; [reflexivity | split; assumption].
Qed.

End TreeFSFacts.

(** ** The extension table *)

Lemma extension_table_nodup : NoDup (extension_table.*1).
Proof. apply (bool_decide_unpack _). vm_compute. exact I. Qed.

Lemma supported_extensions_lookup (e o : string) :
  supported_extensions !! e = Some o <-> (e, o) ∈ extension_table.
Proof.
  unfold supported_extensions. symmetry.
  apply elem_of_list_to_map, extension_table_nodup.
Qed.

Lemma supported_extensions_cases (e o : string) :
  supported_extensions !! e = Some o <->
  (e ∈ model_exts /\ o = ".tmodel") \/ (e ∈ image_exts /\ o = ".ttex").
Proof.
  rewrite supported_extensions_lookup.
  unfold extension_table, model_exts, image_exts.
  rewrite !elem_of_cons, !elem_of_nil.
  split.
  - intros H. repeat (destruct H as [H|H]; [injection H as -> ->; tauto|]).
    destruct H.
  - intros [[H ->]|[H ->]];
      repeat (destruct H as [H|H]; [subst e; tauto|]); destruct H.
Qed.


(** ** The monad and the loops *)
Section Loops.
Context {World : Type}.
Implicit Types (w : World).

Lemma for_each_app {A} (l1 l2 : list A) (body : A -> M (World := World) unit) w :
  for_each (l1 ++ l2) body w =
  bind (for_each l1 body) (fun _ => for_each l2 body) w.
Proof.
  revert w. induction l1 as [|x l1 IH]; intros w; simpl.
  - unfold bind, ret. destruct (for_each l2 body w) as [[w2 t2] r]. reflexivity.
  - unfold bind. destruct (body x w) as [[w1 t1] [[]|e]]; [|reflexivity].
    rewrite IH. unfold bind.
    destruct (for_each l1 body w1) as [[w2 t2] [[]|e]]; [|reflexivity].
    destruct (for_each l2 body w2) as [[w3 t3] r].
    now rewrite <- app_assoc.
Qed.

(** An iteration that changes nothing and prints nothing can be left out. *)
Lemma for_each_skip {A} (l1 l2 : list A) (x : A)
    (body : A -> M (World := World) unit) :
  (forall w, body x w = (w, [], Ok tt)) ->
  forall w, for_each (l1 ++ x :: l2) body w = for_each (l1 ++ l2) body w.
Proof.
  intros Hx w. rewrite !for_each_app. unfold bind.
  destruct (for_each l1 body w) as [[w1 t1] [[]|e]]; [|reflexivity].
  simpl. unfold bind. rewrite Hx.
  destruct (for_each l2 body w1) as [[w2 t2] r]. reflexivity.
Qed.

Lemma for_each_filter {A} (keep : A -> bool) (l : list A)
    (body : A -> M (World := World) unit) :
  (forall x, keep x = false -> forall w, body x w = (w, [], Ok tt)) ->
  forall w, for_each (List.filter keep l) body w = for_each l body w.
Proof.
  intros Hskip. induction l as [|x l IH]; intros w; simpl; [reflexivity|].
  destruct (keep x) eqn:E; simpl.
  - unfold bind. destruct (body x w) as [[w1 t1] [[]|e]]; [|reflexivity].
    now rewrite IH.
  - unfold bind. rewrite (Hskip x E w). rewrite IH.
    destruct (for_each l body w) as [[w2 t2] r]. reflexivity.
Qed.

Lemma for_each_ext {A} (l : list A) (b1 b2 : A -> M (World := World) unit) :
  (forall x w, b1 x w = b2 x w) ->
  forall w, for_each l b1 w = for_each l b2 w.
Proof.
  intros Hb. induction l as [|x l IH]; intros w; simpl; [reflexivity|].
  unfold bind. rewrite Hb.
  destruct (b2 x w) as [[w1 t1] [[]|e]]; [|reflexivity].
  now rewrite IH.
Qed.

Lemma for_each_map {A B} (f : A -> B) (l : list A)
    (body : B -> M (World := World) unit) w :
  for_each (map f l) body w = for_each l (fun x => body (f x)) w.
Proof.
  revert w. induction l as [|x l IH]; intros w; simpl; [reflexivity|].
  unfold bind. destruct (body (f x) w) as [[w1 t1] [[]|e]]; [|reflexivity].
  now rewrite IH.
Qed.

End Loops.

Lemma recognized_false (file : string) :
  recognized file = false <-> supported_extensions !! file_ext file = None.
Proof.
  unfold recognized. rewrite bool_decide_eq_false, <- eq_None_not_Some.
  reflexivity.
Qed.

Section Skipping.
Context {World : Type} (host : Host World).
Variables input_dir output_dir compiler_path : string.

Lemma process_file_unrecognized (root file : string) (w : World) :
  recognized file = false ->
  process_file host input_dir output_dir compiler_path root file w
  = (w, [], Ok tt).
Proof.
  intros H. apply recognized_false in H.
  unfold process_file. fold (file_ext file). now rewrite H.
Qed.

(** C5. A file whose extension is not in the table is skipped: its
    iteration leaves the world as it is, records no call (no print, no
    directory creation, no compiler run) and returns; the loop over the
    files of a directory behaves as if the file were not listed, and so
    does the whole run. *)
Theorem unrecognized_file_skipped (root file : string) (pre post : list string)
    (w w0 : World) :
  recognized file = false ->
  process_file host input_dir output_dir compiler_path root file w
  = (w, [], Ok tt)
  /\ process_item host input_dir output_dir compiler_path
       (root, [], pre ++ file :: post) w0
     = process_item host input_dir output_dir compiler_path
         (root, [], pre ++ post) w0
  /\ compile_assets host input_dir output_dir compiler_path w0
     = compile_assets (only_recognized host) input_dir output_dir
         compiler_path w0.
Proof.
  intros H. split; [|split].
  - now apply process_file_unrecognized.
  - unfold process_item. apply for_each_skip.
    intros w'. now apply process_file_unrecognized.
  - unfold compile_assets, bind, path_exists, walk. simpl.
    destruct (negb (os_path_exists host w0 compiler_path)); [reflexivity|].
    rewrite for_each_map.
    rewrite (for_each_ext _
               (fun x => process_item (only_recognized host) input_dir
                           output_dir compiler_path
                           (let '(root0, dirs, files) := x in
                            (root0, dirs, List.filter recognized files)))
               (process_item host input_dir output_dir compiler_path));
      [reflexivity|].
    intros [[root0 dirs] files] w'. unfold process_item.
    apply (for_each_filter recognized files
             (process_file host input_dir output_dir compiler_path root0)).
    intros x Hx w''. now apply process_file_unrecognized.
Qed.

End Skipping.

(** ** One iteration, case by case *)
Section Iteration.
Context {World : Type} (host : Host World).
Variables input_dir output_dir compiler_path : string.
Implicit Types (w : World).

Lemma supported_nonempty (e o : string) :
  supported_extensions !! e = Some o -> o <> "".
Proof.
  intros H. apply supported_extensions_cases in H.
  destruct H as [[_ ->]|[_ ->]]; discriminate.
Qed.

Lemma dst_path_nonempty (rel out_ext : string) :
  out_ext <> "" -> dst_path_of output_dir rel out_ext <> "".
Proof.
  intros H. apply PathFacts.join_nonempty. intros E.
  apply PathFacts.append_empty in E. tauto.
Qed.

(** One iteration on a recognized file, as a decision tree over the
    answers of the host. *)
Lemma process_file_recognized (root file out_ext rel : string) w :
  supported_extensions !! file_ext file = Some out_ext ->
  Path.relpath (os_getcwd host) (src_path_of root file) input_dir = Some rel ->
  let src := src_path_of root file in
  let dst := dst_path_of output_dir rel out_ext in
  exists rel_dst,
    Path.relpath (os_getcwd host) dst output_dir = Some rel_dst /\
    process_file host input_dir output_dir compiler_path root file w =
    match os_makedirs host w (Path.dirname dst) with
    | None => (w, [EMakedirs (Path.dirname dst)], Raise OSError)
    | Some w1 =>
        let pre := [EMakedirs (Path.dirname dst); EExists dst] in
        if os_path_exists host w1 dst then
          match os_path_getmtime host w1 dst with
          | None => (w1, pre ++ [EGetmtime dst], Raise OSError)
          | Some dst_time =>
              let pre' := pre ++ [EGetmtime dst; EGetmtime src] in
              match os_path_getmtime host w1 src with
              | None => (w1, pre', Raise OSError)
              | Some src_time =>
                  if src_time <=? dst_time then (w1, pre', Ok tt)
                  else compile_branch host compiler_path pre' rel rel_dst
                         src dst w1
              end
          end
        else compile_branch host compiler_path pre rel rel_dst src dst w1
    end.
Proof.
  intros Hext Hrel src dst.
  destruct (PathFacts.relpath_some (os_getcwd host) dst output_dir)
    as [rel_dst Hdst].
  { apply dst_path_nonempty. eapply supported_nonempty, Hext. }
  exists rel_dst. split; [exact Hdst|].
  subst src dst. unfold src_path_of, dst_path_of in *.
  unfold process_file. fold (file_ext file). rewrite Hext.
  unfold compile_branch, bind, makedirs, path_exists, getmtime, relpath,
    print, try_except_called, run_checked, ret.
  rewrite Hrel, Hdst. simpl.
  match goal with |- context [os_makedirs host w ?d] =>
    destruct (os_makedirs host w d) as [w1|]; [|reflexivity] end.
  match goal with |- context [os_path_exists host w1 ?d] =>
    destruct (os_path_exists host w1 d) end.
  - match goal with |- context [os_path_getmtime host w1 ?d] =>
      destruct (os_path_getmtime host w1 d) as [td|]; [|reflexivity] end.
    match goal with |- context [os_path_getmtime host w1 ?d] =>
      destruct (os_path_getmtime host w1 d) as [ts|]; [|reflexivity] end.
    destruct (ts <=? td); [reflexivity|]. simpl.
    match goal with |- context [subprocess_run host w1 ?a] =>
      destruct (subprocess_run host w1 a) as [w2 [c|]]; [|reflexivity] end.
    destruct (c =? 0); reflexivity.
  - simpl.
    match goal with |- context [subprocess_run host w1 ?a] =>
      destruct (subprocess_run host w1 a) as [w2 [c|]]; [|reflexivity] end.
    destruct (c =? 0); reflexivity.
Qed.

Lemma process_file_relpath_none (root file out_ext : string) w :
  supported_extensions !! file_ext file = Some out_ext ->
  Path.relpath (os_getcwd host) (src_path_of root file) input_dir = None ->
  process_file host input_dir output_dir compiler_path root file w
  = (w, [], Raise ValueError).
Proof.
  intros Hext Hrel. unfold src_path_of in Hrel.
  unfold process_file. fold (file_ext file). rewrite Hext.
  unfold bind, relpath. now rewrite Hrel.
Qed.



End Iteration.

(** ** The run as a whole *)
Section Run.
Context {World : Type} (host : Host World).
Variables input_dir output_dir compiler_path : string.
Implicit Types (w : World).


Lemma compile_assets_missing w :
  os_path_exists host w compiler_path = false ->
  compile_assets host input_dir output_dir compiler_path w
  = (w, [EExists compiler_path;
         EPrint ("Error: Compiler not found at " +:+ compiler_path)], Ok tt).
Proof.
  intros H. unfold compile_assets, bind, path_exists, print. now rewrite H.
Qed.

Lemma compile_assets_found w :
  os_path_exists host w compiler_path = true ->
  compile_assets host input_dir output_dir compiler_path w
  = (let '(w', t, r) :=
       for_each (os_walk host w input_dir)
         (process_item host input_dir output_dir compiler_path) w in
     (w', EExists compiler_path :: EWalk input_dir :: t, r)).
Proof.
  intros H. unfold compile_assets, bind, path_exists, walk. rewrite H. simpl.
  destruct (for_each _ _ w) as [[w' t] r]. reflexivity.
Qed.


(** C2. When [compiler_path] does not exist, [compile_assets] checks
    that path, prints the error line and returns: the trace holds no
    walk, no other existence or time query, no directory creation and
    no compiler run, the world is unchanged and nothing is raised. *)
Theorem missing_compiler_aborts w :
  os_path_exists host w compiler_path = false ->
  compile_assets host input_dir output_dir compiler_path w
  = (w, [EExists compiler_path;
         EPrint ("Error: Compiler not found at " +:+ compiler_path)], Ok tt).
Proof. apply compile_assets_missing. Qed.

End Run.

Section Staleness.
Context {World : Type} (host : Host World).
Variables input_dir output_dir compiler_path : string.
Implicit Types (w : World).



End Staleness.

Section Failure.
Context {World : Type} (host : Host World).
Variables input_dir output_dir compiler_path : string.
Implicit Types (w : World).

(** An iteration on a stale destination: the checks, then the run. *)
Lemma process_file_stale (root file out_ext rel : string) w w1 w2 c :
  supported_extensions !! file_ext file = Some out_ext ->
  let src := src_path_of root file in
  let dst := dst_path_of output_dir rel out_ext in
  Path.relpath (os_getcwd host) src input_dir = Some rel ->
  os_makedirs host w (Path.dirname dst) = Some w1 ->
  stale host w1 src dst ->
  subprocess_run host w1 [compiler_path; src; dst] = (w2, Exited c) ->
  exists rel_dst,
    Path.relpath (os_getcwd host) dst output_dir = Some rel_dst /\
    process_file host input_dir output_dir compiler_path root file w
    = (w2, check_events src dst (os_path_exists host w1 dst)
           ++ run_events compiler_path rel rel_dst src dst c, Ok tt).
Proof.
  intros Hext src dst Hrel Hmk Hst Hsub.
  destruct (process_file_recognized host input_dir output_dir compiler_path
              root file out_ext rel w Hext Hrel) as (rel_dst & Hdst & Heq).
  exists rel_dst. split; [exact Hdst|].
  rewrite Heq. clear Heq. fold src dst. rewrite Hmk. cbv zeta.
  unfold compile_branch, check_events, run_events.
  destruct (os_path_exists host w1 dst) eqn:Hex.
  - destruct Hst as [Hst|(td & ts & Htd & Hts & Hlt)]; [congruence|].
    rewrite Htd, Hts.
    destruct (ts <=? td) eqn:Hle; [lia|].
    rewrite Hsub. destruct (c =? 0); reflexivity.
  - rewrite Hsub. destruct (c =? 0); reflexivity.
Qed.

(** C6. When the compiler exits with a return code other than zero on a
    stale file, the iteration prints the failure line naming the source
    path and returns without raising, and the loop goes on with the
    remaining files of the directory from the world the compiler left:
    the rest of the trace and the outcome are those of the remaining
    files. *)
Theorem compile_failure_continues (root file out_ext rel : string)
    (post : list string) w w1 w2 c :
  supported_extensions !! file_ext file = Some out_ext ->
  let src := src_path_of root file in
  let dst := dst_path_of output_dir rel out_ext in
  Path.relpath (os_getcwd host) src input_dir = Some rel ->
  os_makedirs host w (Path.dirname dst) = Some w1 ->
  stale host w1 src dst ->
  subprocess_run host w1 [compiler_path; src; dst] = (w2, Exited c) ->
  c <> 0 ->
  exists tx,
    process_file host input_dir output_dir compiler_path root file w
    = (w2, tx ++ [ERun [compiler_path; src; dst]; EPrint (failed_line src)],
       Ok tt) /\
    process_item host input_dir output_dir compiler_path
      (root, [], file :: post) w
    = (let '(w3, t, r) :=
         process_item host input_dir output_dir compiler_path
           (root, [], post) w2 in
       (w3, (tx ++ [ERun [compiler_path; src; dst]; EPrint (failed_line src)])
            ++ t, r)).
Proof.
  intros Hext src dst Hrel Hmk Hst Hsub Hc.
  destruct (process_file_stale root file out_ext rel w w1 w2 c
              Hext Hrel Hmk Hst Hsub) as (rel_dst & Hdst & Heq).
  fold src dst in Heq.
  exists (check_events src dst (os_path_exists host w1 dst)
          ++ [EPrint (compiling_line rel rel_dst)]).
  assert (Htx :
    check_events src dst (os_path_exists host w1 dst)
    ++ run_events compiler_path rel rel_dst src dst c
    = (check_events src dst (os_path_exists host w1 dst)
       ++ [EPrint (compiling_line rel rel_dst)])
      ++ [ERun [compiler_path; src; dst]; EPrint (failed_line src)]).
  { unfold run_events. destruct (c =? 0) eqn:E; [lia|].
    rewrite <- app_assoc. reflexivity. }
  rewrite Htx in Heq. split; [exact Heq|].
  unfold process_item. simpl. unfold bind. rewrite Heq. reflexivity.
Qed.

End Failure.

Section Idempotence.
Context {World : Type} (host : Host World).
Variables input_dir output_dir compiler_path : string.
Implicit Types (w : World).

Lemma quiet_nil : quiet [].
Proof. intros e H. apply elem_of_nil in H. destruct H. Qed.

Lemma quiet_app (t1 t2 : list event) : quiet t1 -> quiet t2 -> quiet (t1 ++ t2).
Proof.
  intros H1 H2 e He. apply elem_of_app in He as [He|He]; auto.
Qed.

Lemma quiet_check_events (src dst : string) (times : bool) :
  quiet (check_events src dst times).
Proof.
  intros e. unfold check_events. destruct times; simpl;
    rewrite ?elem_of_cons, elem_of_nil; intros H;
    repeat (destruct H as [->|H]; [split; reflexivity|]); destruct H.
Qed.

(** A loop whose iterations all leave the world alone and are quiet. *)
Lemma for_each_quiet {A} (l : list A) (body : A -> M (World := World) unit) w :
  (forall x, x ∈ l -> exists t, body x w = (w, t, Ok tt) /\ quiet t) ->
  exists t, for_each l body w = (w, t, Ok tt) /\ quiet t.
Proof.
  induction l as [|x l IH]; intros H.
  - exists []. split; [reflexivity | apply quiet_nil].
  - destruct (H x) as (t1 & H1 & Hq1); [apply elem_of_cons; now left|].
    destruct IH as (t2 & H2 & Hq2).
    { intros y Hy. apply H. apply elem_of_cons. now right. }
    exists (t1 ++ t2). split; [|now apply quiet_app].
    simpl. unfold bind. now rewrite H1, H2.
Qed.

Lemma process_file_up_to_date (root file out_ext rel : string) w :
  supported_extensions !! file_ext file = Some out_ext ->
  let src := src_path_of root file in
  let dst := dst_path_of output_dir rel out_ext in
  Path.relpath (os_getcwd host) src input_dir = Some rel ->
  os_makedirs host w (Path.dirname dst) = Some w ->
  up_to_date host w src dst ->
  process_file host input_dir output_dir compiler_path root file w
  = (w, check_events src dst true, Ok tt).
Proof.
  intros Hext src dst Hrel Hmk (Hex & td & ts & Htd & Hts & Hge).
  destruct (process_file_recognized host input_dir output_dir compiler_path
              root file out_ext rel w Hext Hrel) as (rel_dst & Hdst & Heq).
  rewrite Heq. fold src dst. rewrite Hmk. cbv zeta.
  rewrite Hex, Htd, Hts.
  destruct (ts <=? td) eqn:Hle; [reflexivity | lia].
Qed.

(** C7. When every recognized file of the walk is settled (its
    destination exists with a modification time greater than or equal to
    the source's, in a directory that is there already), a run changes
    nothing, returns, runs the compiler zero times and prints no
    compiling line. *)
Theorem second_run_is_quiet w :
  settled host input_dir output_dir w (os_walk host w input_dir) ->
  exists tr,
    compile_assets host input_dir output_dir compiler_path w = (w, tr, Ok tt) /\
    quiet tr.
Proof.
  intros Hset.
  destruct (os_path_exists host w compiler_path) eqn:Hc.
  2:{ rewrite (compile_assets_missing host _ _ _ _ Hc).
      eexists. split; [reflexivity|]. intros e He.
      apply elem_of_cons in He as [->|He]; [split; reflexivity|].
      apply elem_of_cons in He as [->|He]; [split; reflexivity|].
      apply elem_of_nil in He. destruct He. }
  rewrite (compile_assets_found host _ _ _ _ Hc).
  destruct (for_each_quiet (os_walk host w input_dir)
              (process_item host input_dir output_dir compiler_path) w)
    as (t & Ht & Hq).
  { intros [[root dirs] files] Hitem. simpl.
    apply for_each_quiet. intros file Hfile.
    destruct (supported_extensions !! file_ext file) as [out_ext|] eqn:Hext.
    - destruct (Hset root dirs files file out_ext Hitem Hfile Hext)
        as (rel & Hrel & Hmk & Hup).
      eexists. split.
      + apply (process_file_up_to_date root file out_ext rel w Hext Hrel Hmk Hup).
      + apply quiet_check_events.
    - exists []. split; [|apply quiet_nil].
      apply process_file_unrecognized. now apply recognized_false. }
  rewrite Ht. eexists. split; [reflexivity|].
  intros e He. apply elem_of_cons in He as [->|He]; [split; reflexivity|].
  apply elem_of_cons in He as [->|He]; [split; reflexivity|].
  now apply Hq.
Qed.

End Idempotence.

(** C10. A file whose whole name is one of the recognized extensions, such
    as [.png] or [.obj], has no extension for [splitext]: the leading dot
    belongs to the name.  It is not recognized, and its iteration changes
    nothing, records no call and runs no compiler. *)
Theorem leading_dot_name_skipped {World : Type} (host : Host World)
    (input_dir output_dir compiler_path root name : string) (w : World) :
  is_Some (supported_extensions !! name) ->
  Path.splitext name = (name, "") /\
  recognized name = false /\
  process_file host input_dir output_dir compiler_path root name w
  = (w, [], Ok tt).
Proof.
  intros [o H].
  assert (Hn : Path.splitext name = (name, "") /\ recognized name = false).
  { apply supported_extensions_cases in H.
    unfold model_exts, image_exts in H.
    rewrite !elem_of_cons, !elem_of_nil in H.
    destruct H as [[H _]|[H _]];
      repeat (destruct H as [->|H]; [split; vm_compute; reflexivity|]);
      destruct H. }
  destruct Hn as [Hs Hr]. split; [exact Hs|]. split; [exact Hr|].
  now apply process_file_unrecognized.
Qed.

(** ** The statements at the concrete host *)


Lemma missing_compiler_aborts_witness :
  os_path_exists TreeFS.host TreeFS.demo "/bin/tinygl_ac" = false /\
  compile_assets TreeFS.host "/in" "/out" "/bin/tinygl_ac" TreeFS.demo
  = (TreeFS.demo,
     [EExists "/bin/tinygl_ac";
      EPrint "Error: Compiler not found at /bin/tinygl_ac"], Ok tt).
Proof.
  split; [reflexivity|].
  apply (missing_compiler_aborts TreeFS.host "/in" "/out" "/bin/tinygl_ac").
  reflexivity.
Defined.

Lemma unrecognized_file_skipped_witness :
  recognized "a.txt" = false /\
  process_file TreeFS.host "/in" "/out" "/bin/ac" "/in" "a.txt" TreeFS.demo
  = (TreeFS.demo, [], Ok tt).
Proof.
  split; [reflexivity|].
  apply (unrecognized_file_skipped TreeFS.host "/in" "/out" "/bin/ac"
           "/in" "a.txt" ["a.png"] [] TreeFS.demo TreeFS.demo).
  reflexivity.
Defined.

(** The run over [demo]: the compiler fails on [bad.jpg], and the file
    after it is compiled all the same. *)
Example demo_trace :
  snd (fst (compile_assets TreeFS.host "/in" "/out" "/bin/ac" TreeFS.demo))
  = [ EExists "/bin/ac"; EWalk "/in";
      EMakedirs "/out"; EExists "/out/a.ttex";
      EPrint "Compiling: a.png -> a.ttex";
      ERun ["/bin/ac"; "/in/a.png"; "/out/a.ttex"];
      EMakedirs "/out/sub"; EExists "/out/sub/bad.ttex";
      EPrint "Compiling: sub/bad.jpg -> sub/bad.ttex";
      ERun ["/bin/ac"; "/in/sub/bad.jpg"; "/out/sub/bad.ttex"];
      EPrint "Failed to compile /in/sub/bad.jpg";
      EMakedirs "/out/sub"; EExists "/out/sub/model.tmodel";
      EPrint "Compiling: sub/model.OBJ -> sub/model.tmodel";
      ERun ["/bin/ac"; "/in/sub/model.OBJ"; "/out/sub/model.tmodel"] ].
Proof. vm_compute. reflexivity. Qed.

Lemma compile_failure_continues_witness :
  exists tx w2,
    process_file TreeFS.host "/in" "/out" "/bin/ac" "/in/sub" "bad.jpg"
      TreeFS.demo
    = (w2, tx ++ [ERun ["/bin/ac"; "/in/sub/bad.jpg"; "/out/sub/bad.ttex"];
                  EPrint "Failed to compile /in/sub/bad.jpg"], Ok tt) /\
    process_item TreeFS.host "/in" "/out" "/bin/ac"
      ("/in/sub", [], ["bad.jpg"; "model.OBJ"]) TreeFS.demo
    = (let '(w3, t, r) :=
         process_item TreeFS.host "/in" "/out" "/bin/ac"
           ("/in/sub", [], ["model.OBJ"]) w2 in
       (w3, (tx ++ [ERun ["/bin/ac"; "/in/sub/bad.jpg"; "/out/sub/bad.ttex"];
                    EPrint "Failed to compile /in/sub/bad.jpg"]) ++ t, r)).
Proof.
  edestruct (compile_failure_continues TreeFS.host "/in" "/out" "/bin/ac"
               "/in/sub" "bad.jpg" ".ttex" "sub/bad.jpg" ["model.OBJ"]
               TreeFS.demo) as (tx & H1 & H2).
  - reflexivity.
  - reflexivity.
  - vm_compute. reflexivity.
  - left. reflexivity.
  - vm_compute. reflexivity.
  - discriminate.
  - exists tx. eexists. split; [exact H1 | exact H2].
Defined.

Lemma second_run_is_quiet_witness :
  exists tr,
    compile_assets TreeFS.host "/in" "/out" "/bin/ac" TreeFS.demo_good_after
    = (TreeFS.demo_good_after, tr, Ok tt) /\
    quiet tr.
Proof.
  apply (second_run_is_quiet TreeFS.host "/in" "/out" "/bin/ac").
  assert (Hw : os_walk TreeFS.host TreeFS.demo_good_after "/in"
               = [ ("/in", ["sub"], ["a.png"; "a.txt"]);
                   ("/in/sub", [], ["model.obj"]) ])
    by (vm_compute; reflexivity).
  rewrite Hw. clear Hw.
  intros root dirs files file out_ext Hitem Hfile Hext.
  apply elem_of_cons in Hitem as [Hitem|Hitem].
  - injection Hitem as -> -> ->.
    apply elem_of_cons in Hfile as [->|Hfile].
    + injection Hext as <-. exists "a.png".
      split; [reflexivity|]. split; [vm_compute; reflexivity|].
      split; [reflexivity|]. exists 10, 5.
      split; [reflexivity|]. split; [reflexivity|]. lia.
    + apply elem_of_cons in Hfile as [->|Hfile]; [discriminate Hext|].
      apply elem_of_nil in Hfile. destruct Hfile.
  - apply elem_of_cons in Hitem as [Hitem|Hitem].
    + injection Hitem as -> -> ->.
      apply elem_of_cons in Hfile as [->|Hfile].
      * injection Hext as <-. exists "sub/model.obj".
        split; [reflexivity|]. split; [vm_compute; reflexivity|].
        split; [reflexivity|]. exists 11, 7.
        split; [reflexivity|]. split; [reflexivity|]. lia.
      * apply elem_of_nil in Hfile. destruct Hfile.
    + apply elem_of_nil in Hitem. destruct Hitem.
Defined.

Lemma leading_dot_name_skipped_witness :
  is_Some (supported_extensions !! ".png") /\
  Path.splitext ".png" = (".png", "") /\
  recognized ".png" = false /\
  process_file TreeFS.host "/in" "/out" "/bin/ac" "/in/sub" ".png" TreeFS.demo
  = (TreeFS.demo, [], Ok tt).
Proof.
  assert (H : is_Some (supported_extensions !! ".png"))
    by (exists ".ttex"; reflexivity).
  split; [exact H|].
  exact (leading_dot_name_skipped TreeFS.host "/in" "/out" "/bin/ac"
           "/in/sub" ".png" TreeFS.demo H).
Defined.

(** ** The destination path *)
Section Destination.
Context {World : Type} (host : Host World).
Variables input_dir output_dir compiler_path : string.
Implicit Types (w : World).




End Destination.


(** ** What a run writes *)


Section Frame.
Context {World : Type} (host : Host World).
Variables input_dir output_dir compiler_path : string.
Implicit Types (w : World).



End Frame.

Section FrameRun.
Context {World : Type} (host : Host World).
Variables input_dir output_dir compiler_path : string.
Implicit Types (w : World).




End FrameRun.




(** ** Independence from file contents *)
Section Noninterference.
Context {W1 W2 : Type} (h1 : Host W1) (h2 : Host W2) (R : W1 -> W2 -> Prop).
Hypothesis Hagree : agree h1 h2 R.
Variables input_dir output_dir compiler_path : string.

Lemma sb_ret {A} (a : A) : same_behaviour R (ret a) (ret a).
Proof. intros w1 w2 HR. simpl. auto. Qed.

Lemma sb_raise {A} (e : exn) : same_behaviour R (raise (A := A) e) (raise e).
Proof. intros w1 w2 HR. simpl. auto. Qed.

Lemma sb_bind {A B} (m1 : M A) (m2 : M A) (k1 : A -> M B) (k2 : A -> M B) :
  same_behaviour R m1 m2 ->
  (forall a, same_behaviour R (k1 a) (k2 a)) ->
  same_behaviour R (bind m1 k1) (bind m2 k2).
Proof.
  intros Hm Hk w1 w2 HR. specialize (Hm w1 w2 HR). unfold bind.
  destruct (m1 w1) as [[a1 t1] r1], (m2 w2) as [[a2 t2] r2].
  simpl in Hm. destruct Hm as (-> & -> & HR').
  destruct r2 as [x|e]; [|simpl; auto].
  specialize (Hk x a1 a2 HR').
  destruct (k1 x a1) as [[b1 u1] s1], (k2 x a2) as [[b2 u2] s2].
  simpl in *. destruct Hk as (-> & -> & Hb). auto.
Qed.

Lemma sb_try (m1 : M unit) (m2 : M unit) (k1 : M unit) (k2 : M unit) :
  same_behaviour R m1 m2 ->
  same_behaviour R k1 k2 ->
  same_behaviour R (try_except_called m1 k1) (try_except_called m2 k2).
Proof.
  intros Hm Hk w1 w2 HR. specialize (Hm w1 w2 HR). unfold try_except_called.
  destruct (m1 w1) as [[a1 t1] r1], (m2 w2) as [[a2 t2] r2].
  simpl in Hm. destruct Hm as (-> & -> & HR').
  destruct r2 as [[]|[| |c]]; simpl; auto.
  specialize (Hk a1 a2 HR').
  destruct (k1 a1) as [[b1 u1] s1], (k2 a2) as [[b2 u2] s2].
  simpl in *. destruct Hk as (-> & -> & Hb). auto.
Qed.

Lemma sb_for_each {A} (l : list A) (b1 : A -> M unit) (b2 : A -> M unit) :
  (forall x, same_behaviour R (b1 x) (b2 x)) ->
  same_behaviour R (for_each l b1) (for_each l b2).
Proof.
  intros Hb. induction l as [|x l IH]; simpl.
  - apply sb_ret.
  - apply sb_bind; [apply Hb | intros _; exact IH].
Qed.

Lemma sb_print (line : string) : same_behaviour R (print line) (print line).
Proof. intros w1 w2 HR. simpl. auto. Qed.

Lemma sb_path_exists (p : string) :
  same_behaviour R (path_exists h1 p) (path_exists h2 p).
Proof.
  intros w1 w2 HR. unfold path_exists. simpl.
  now rewrite (agree_exists h1 h2 R Hagree w1 w2 p HR).
Qed.

Lemma sb_getmtime (p : string) :
  same_behaviour R (getmtime h1 p) (getmtime h2 p).
Proof.
  intros w1 w2 HR. unfold getmtime. simpl.
  now rewrite (agree_getmtime h1 h2 R Hagree w1 w2 p HR).
Qed.

Lemma sb_walk (top : string) : same_behaviour R (walk h1 top) (walk h2 top).
Proof.
  intros w1 w2 HR. unfold walk. simpl.
  now rewrite (agree_walk h1 h2 R Hagree w1 w2 top HR).
Qed.

Lemma sb_makedirs (p : string) :
  same_behaviour R (makedirs h1 p) (makedirs h2 p).
Proof.
  intros w1 w2 HR. unfold makedirs.
  pose proof (agree_makedirs h1 h2 R Hagree w1 w2 p HR) as H.
  destruct (os_makedirs h1 w1 p), (os_makedirs h2 w2 p); simpl;
    try contradiction; auto.
Qed.

Lemma sb_run_checked (args : list string) :
  same_behaviour R (run_checked h1 args) (run_checked h2 args).
Proof.
  intros w1 w2 HR. unfold run_checked.
  destruct (agree_run h1 h2 R Hagree w1 w2 args HR) as [Hr Hw].
  destruct (subprocess_run h1 w1 args) as [a1 r1],
           (subprocess_run h2 w2 args) as [a2 r2].
  simpl in *. subst r2. auto.
Qed.

Lemma sb_relpath (path start : string) :
  same_behaviour R (relpath h1 path start) (relpath h2 path start).
Proof.
  unfold relpath. rewrite (agree_cwd h1 h2 R Hagree).
  destruct (Path.relpath _ _ _); [apply sb_ret | apply sb_raise].
Qed.

Lemma sb_process_file (root file : string) :
  same_behaviour R
    (process_file h1 input_dir output_dir compiler_path root file)
    (process_file h2 input_dir output_dir compiler_path root file).
Proof.
  unfold process_file.
  destruct (supported_extensions !! _) as [out_ext|]; [|apply sb_ret].
  apply sb_bind; [apply sb_relpath | intros rel].
  apply sb_bind; [apply sb_makedirs | intros _].
  apply sb_bind; [apply sb_path_exists | intros dst_exists].
  apply sb_bind.
  - destruct dst_exists; [|apply sb_ret].
    apply sb_bind; [apply sb_getmtime | intros td].
    apply sb_bind; [apply sb_getmtime | intros ts]. apply sb_ret.
  - intros [|]; [|apply sb_ret].
    apply sb_bind; [apply sb_relpath | intros rel_dst].
    apply sb_bind; [apply sb_print | intros _].
    apply sb_try; [apply sb_run_checked | apply sb_print].
Qed.

Lemma sb_compile_assets :
  same_behaviour R
    (compile_assets h1 input_dir output_dir compiler_path)
    (compile_assets h2 input_dir output_dir compiler_path).
Proof.
  unfold compile_assets.
  apply sb_bind; [apply sb_path_exists | intros found].
  destruct (negb found); [apply sb_print|].
  apply sb_bind; [apply sb_walk | intros items].
  apply sb_for_each. intros [[root dirs] files]. simpl.
  apply sb_for_each. intros file. apply sb_process_file.
Qed.

End Noninterference.

(** C9, amended.  [compile_assets] asks its host for existence,
    modification times, the walk and the outcome of compiler runs, and
    never for the contents of a file (the model of the script has no call
    that reads one, as [get_hash] is not called).  So two runs whose
    hosts agree on those answers, however the file contents differ, make
    the same calls in the same order (the same staleness queries, the
    same compiler runs with the same arguments, the same printed lines)
    and end the same way. *)
Theorem same_answers_same_run {W1 W2 : Type} (h1 : Host W1) (h2 : Host W2)
    (R : W1 -> W2 -> Prop) (input_dir output_dir compiler_path : string)
    (w1 : W1) (w2 : W2) :
  agree h1 h2 R ->
  R w1 w2 ->
  snd (fst (compile_assets h1 input_dir output_dir compiler_path w1))
  = snd (fst (compile_assets h2 input_dir output_dir compiler_path w2)) /\
  snd (compile_assets h1 input_dir output_dir compiler_path w1)
  = snd (compile_assets h2 input_dir output_dir compiler_path w2) /\
  R (fst (fst (compile_assets h1 input_dir output_dir compiler_path w1)))
    (fst (fst (compile_assets h2 input_dir output_dir compiler_path w2))).
Proof.
  intros Hagree HR.
  exact (sb_compile_assets h1 h2 R Hagree input_dir output_dir compiler_path
           w1 w2 HR).
Qed.

(** The two twin trees have the same names and times, and the runs over
    them differ: the compiler fails on the empty [a.jpg], the failure line
    is printed, no [a.ttex] is left, and [a.png] is compiled as well. *)
Lemma contents_change_the_run :
  let run1 := compile_assets TreeFS.host "/in" "/out" "/bin/ac" TreeFS.twin_full in
  let run2 := compile_assets TreeFS.host "/in" "/out" "/bin/ac" TreeFS.twin_empty in
  TreeFS.erase (TreeFS.root TreeFS.twin_full)
  = TreeFS.erase (TreeFS.root TreeFS.twin_empty) /\
  snd (fst run1)
  = [ EExists "/bin/ac"; EWalk "/in";
      EMakedirs "/out"; EExists "/out/a.ttex";
      EPrint "Compiling: a.jpg -> a.ttex";
      ERun ["/bin/ac"; "/in/a.jpg"; "/out/a.ttex"];
      EMakedirs "/out"; EExists "/out/a.ttex";
      EGetmtime "/out/a.ttex"; EGetmtime "/in/a.png" ] /\
  snd (fst run2)
  = [ EExists "/bin/ac"; EWalk "/in";
      EMakedirs "/out"; EExists "/out/a.ttex";
      EPrint "Compiling: a.jpg -> a.ttex";
      ERun ["/bin/ac"; "/in/a.jpg"; "/out/a.ttex"];
      EPrint "Failed to compile /in/a.jpg";
      EMakedirs "/out"; EExists "/out/a.ttex";
      EPrint "Compiling: a.png -> a.ttex";
      ERun ["/bin/ac"; "/in/a.png"; "/out/a.ttex"] ] /\
  List.filter is_run (snd (fst run1)) <> List.filter is_run (snd (fst run2)) /\
  List.filter is_print (snd (fst run1)) <> List.filter is_print (snd (fst run2)).
Proof.
  cbv zeta. split; [reflexivity|].
  split; [vm_compute; reflexivity|].
  split; [vm_compute; reflexivity|].
  split; vm_compute; discriminate.
Qed.

Lemma same_answers_same_run_witness :
  let run1 :=
    compile_assets TreeFS.host_copy "/in" "/out" "/bin/ac" TreeFS.twin_full in
  let run2 :=
    compile_assets TreeFS.host_copy "/in" "/out" "/bin/ac" TreeFS.twin_empty in
  TreeFS.same_shape TreeFS.twin_full TreeFS.twin_empty /\
  snd (fst run1) = snd (fst run2) /\
  snd run1 = snd run2 /\
  TreeFS.same_shape (fst (fst run1)) (fst (fst run2)).
Proof.
  cbv zeta.
  assert (H : TreeFS.same_shape TreeFS.twin_full TreeFS.twin_empty)
    by (split; reflexivity).
  split; [exact H|].
  exact (same_answers_same_run TreeFS.host_copy TreeFS.host_copy
           TreeFS.same_shape "/in" "/out" "/bin/ac"
           TreeFS.twin_full TreeFS.twin_empty TreeFSFacts.agree_copy H).
Defined.

(** ** File names and extensions *)
Module NameFacts.
Import Path.

Lemma has_dot_lower (s : string) : has_dot (lower s) = has_dot s.
Proof.
  induction s as [|c s IH]; [reflexivity|]. simpl.
  now rewrite PathFacts.is_dot_lower_char, IH.
Qed.

Lemma ext_shape_lower (e : string) : ext_shape (lower e) = ext_shape e.
Proof.
  destruct e as [|c r]; [reflexivity|]. simpl.
  now rewrite PathFacts.is_dot_lower_char, has_dot_lower, PathFacts.has_sep_lower.
Qed.

Lemma supported_ext_shape (e o : string) :
  supported_extensions !! lower e = Some o -> ext_shape e = true.
Proof.
  intros H. rewrite <- ext_shape_lower.
  apply supported_extensions_cases in H.
  unfold model_exts, image_exts in H.
  rewrite !elem_of_cons, !elem_of_nil in H.
  destruct H as [[H _]|[H _]];
    repeat (destruct H as [->|H]; [reflexivity|]); destruct H.
Qed.

Lemma rsplit_dot_none (r : string) : has_dot r = false -> rsplit_dot r = None.
Proof.
  induction r as [|c r IH]; [reflexivity|]. simpl.
  intros H. apply orb_false_iff in H as [Hc Hr].
  now rewrite (IH Hr), Hc.
Qed.

Lemma rsplit_dot_app (a e : string) :
  ext_shape e = true -> rsplit_dot (a +:+ e) = Some (a, e).
Proof.
  intros He. induction a as [|x a IH].
  - destruct e as [|c r]; [discriminate|]. simpl in He.
    apply andb_true_iff in He as [He _]. apply andb_true_iff in He as [Hc Hr].
    apply negb_true_iff in Hr.
    change (rsplit_dot (String c r) = Some ("", String c r)). simpl.
    now rewrite (rsplit_dot_none r Hr), Hc.
  - change (rsplit_dot (String x (a +:+ e)) = Some (String x a, e)).
    simpl. now rewrite IH.
Qed.

Lemma span_dots_app (s x : string) :
  all_dots s = false ->
  span_dots (s +:+ x) = (fst (span_dots s), snd (span_dots s) +:+ x).
Proof.
  induction s as [|c s IH]; [discriminate|]. intros H.
  change (span_dots (String c (s +:+ x))
          = (fst (span_dots (String c s)), snd (span_dots (String c s)) +:+ x)).
  simpl in *. destruct (is_dot c); [|reflexivity].
  simpl in H. rewrite (IH H). destruct (span_dots s); reflexivity.
Qed.

Lemma ext_shape_sep_free (e : string) : ext_shape e = true -> has_sep e = false.
Proof.
  destruct e as [|c r]; [discriminate|]. simpl. intros H.
  apply andb_true_iff in H as [H Hs]. apply andb_true_iff in H as [Hc _].
  apply negb_true_iff in Hs. rewrite Hs, orb_false_r.
  unfold is_dot in Hc. apply Ascii.eqb_eq in Hc. subst c. reflexivity.
Qed.

(** [splitext] undoes the appending of an extension to a file name that
    is not made of dots only. *)
Lemma splitext_append (stem e : string) :
  has_sep stem = false -> all_dots stem = false -> ext_shape e = true ->
  splitext (stem +:+ e) = (stem, e).
Proof.
  intros Hs Hd He. unfold splitext.
  rewrite (RelFacts.rsplit_sep_free (stem +:+ e)).
  2:{ rewrite RelFacts.has_sep_app, Hs. now apply ext_shape_sep_free. }
  rewrite (span_dots_app stem e Hd).
  pose proof (RelFacts.span_dots_cat stem) as Hc.
  destruct (span_dots stem) as [dots rest]. simpl in *.
  rewrite (rsplit_dot_app rest e He).
  change ("" +:+ dots +:+ rest) with (dots +:+ rest). now rewrite Hc.
Qed.

Lemma span_dots_rest (s : string) :
  match snd (span_dots s) with
  | String c _ => is_dot c = false
  | EmptyString => True
  end.
Proof.
  induction s as [|c s IH]; [exact I|]. simpl.
  destruct (is_dot c) eqn:E; [|exact E].
  destruct (span_dots s). exact IH.
Qed.

Lemma all_dots_app (x y : string) :
  all_dots (x +:+ y) = (all_dots x && all_dots y)%bool.
Proof.
  induction x as [|c x IH]; [reflexivity|].
  change (all_dots (String c (x +:+ y)) = (all_dots (String c x) && all_dots y)%bool).
  simpl. rewrite IH. now rewrite andb_assoc.
Qed.

(** A file name with an extension has a character other than a dot
    before it. *)
Lemma splitext_stem_not_dots (f : string) :
  has_sep f = false -> snd (splitext f) <> "" ->
  all_dots (fst (splitext f)) = false.
Proof.
  intros Hs. unfold splitext. rewrite (RelFacts.rsplit_sep_free f Hs).
  pose proof (span_dots_rest f) as Hr.
  destruct (span_dots f) as [dots rest]. simpl in Hr.
  destruct (rsplit_dot rest) as [[a b]|] eqn:E; simpl; [|contradiction].
  intros _. change ("" +:+ dots +:+ a) with (dots +:+ a).
  rewrite all_dots_app.
  destruct rest as [|c r]; [discriminate|]. simpl in E.
  destruct (rsplit_dot r) as [[a' b']|].
  - injection E as <- <-. simpl. rewrite Hr. apply andb_false_r.
  - rewrite Hr in E. discriminate.
Qed.

Lemma has_sep_app_l (a b : string) : has_sep (a +:+ b) = false -> has_sep a = false.
Proof.
  rewrite RelFacts.has_sep_app. intros H. now apply orb_false_iff in H as [-> _].
Qed.

(** X4. Among the names of a directory listing, the recognized files are
    exactly the names made of a stem with a character other than a dot,
    followed by an extension whose lowercase is in the table; for such a
    name [splitext] gives back the stem and the extension. *)
Theorem recognized_iff_stem_and_extension (file : string) :
  has_sep file = false ->
  (recognized file = true <->
   exists stem ext out_ext,
     file = stem +:+ ext /\ all_dots stem = false /\
     supported_extensions !! lower ext = Some out_ext) /\
  (forall stem ext out_ext,
     file = stem +:+ ext -> all_dots stem = false ->
     supported_extensions !! lower ext = Some out_ext ->
     splitext file = (stem, ext)).
Proof.
  intros Hs.
  assert (Hback : forall stem ext out_ext,
            file = stem +:+ ext -> all_dots stem = false ->
            supported_extensions !! lower ext = Some out_ext ->
            splitext file = (stem, ext)).
  { intros stem ext out_ext -> Hd Hext.
    apply splitext_append; [now apply has_sep_app_l in Hs | exact Hd|].
    eapply supported_ext_shape, Hext. }
  split; [|exact Hback]. split.
  - intros H. apply bool_decide_eq_true in H as [out_ext Hext].
    unfold file_ext in Hext.
    exists (fst (splitext file)), (snd (splitext file)), out_ext.
    split; [symmetry; apply RelFacts.splitext_cat|]. split; [|exact Hext].
    apply splitext_stem_not_dots; [exact Hs|].
    intros E. rewrite E in Hext. discriminate.
  - intros (stem & ext & out_ext & Hf & Hd & Hext).
    apply bool_decide_eq_true. exists out_ext. unfold file_ext.
    now rewrite (Hback stem ext out_ext Hf Hd Hext).
Qed.

(** X5. Two files of one directory with the same stem and extensions that
    map to the same output extension, such as [a.png] and [a.JPG], have the
    same destination path. *)
Theorem same_stem_same_destination (output_dir stem e1 e2 out_ext : string)
    (ds : list string) :
  has_sep stem = false -> all_dots stem = false ->
  supported_extensions !! lower e1 = Some out_ext ->
  supported_extensions !! lower e2 = Some out_ext ->
  file_ext (stem +:+ e1) = lower e1 /\
  file_ext (stem +:+ e2) = lower e2 /\
  dst_path_of output_dir (sep_join (ds ++ [stem +:+ e1])) out_ext
  = dst_path_of output_dir (sep_join (ds ++ [stem +:+ e2])) out_ext /\
  dst_path_of output_dir (sep_join (ds ++ [stem +:+ e1])) out_ext
  = join output_dir (sep_join (ds ++ [stem +:+ out_ext])).
Proof.
  intros Hs Hd H1 H2.
  pose proof (supported_ext_shape _ _ H1) as S1.
  pose proof (supported_ext_shape _ _ H2) as S2.
  pose proof (splitext_append stem e1 Hs Hd S1) as E1.
  pose proof (splitext_append stem e2 Hs Hd S2) as E2.
  assert (F1 : has_sep (stem +:+ e1) = false)
    by (rewrite RelFacts.has_sep_app, Hs; now apply ext_shape_sep_free).
  assert (F2 : has_sep (stem +:+ e2) = false)
    by (rewrite RelFacts.has_sep_app, Hs; now apply ext_shape_sep_free).
  unfold file_ext. rewrite E1, E2. simpl snd.
  split; [reflexivity|]. split; [reflexivity|].
  rewrite (RelFacts.dst_path_mirrors output_dir ds _ out_ext F1).
  rewrite (RelFacts.dst_path_mirrors output_dir ds _ out_ext F2).
  rewrite E1, E2. simpl fst. split; reflexivity.
Qed.

End NameFacts.

(** ** Exceptions *)
Section Abort.
Context {World : Type} (host : Host World).
Variables input_dir output_dir compiler_path : string.
Implicit Types (w : World).

Lemma for_each_raise_at {A} (pre post : list A) (x : A)
    (body : A -> M (World := World) unit) w w1 w2 t1 t2 e :
  for_each pre body w = (w1, t1, Ok tt) ->
  body x w1 = (w2, t2, Raise e) ->
  for_each (pre ++ x :: post) body w = (w2, t1 ++ t2, Raise e).
Proof.
  intros Hpre Hx. rewrite for_each_app. unfold bind. rewrite Hpre.
  simpl. unfold bind. now rewrite Hx.
Qed.

(** X1. An iteration that raises ends the run there: the files and the
    directories after it are not processed, and the exception leaves
    [compile_assets]. *)
Theorem run_stops_at_first_raise (ipre ipost : list walk_item)
    (root : string) (dirs fpre fpost : list string) (file : string)
    w0 w1 w2 w3 t1 t2 t3 e :
  os_path_exists host w0 compiler_path = true ->
  os_walk host w0 input_dir = ipre ++ (root, dirs, fpre ++ file :: fpost) :: ipost ->
  for_each ipre (process_item host input_dir output_dir compiler_path) w0
  = (w1, t1, Ok tt) ->
  for_each fpre (process_file host input_dir output_dir compiler_path root) w1
  = (w2, t2, Ok tt) ->
  process_file host input_dir output_dir compiler_path root file w2
  = (w3, t3, Raise e) ->
  compile_assets host input_dir output_dir compiler_path w0
  = (w3, [EExists compiler_path; EWalk input_dir] ++ t1 ++ t2 ++ t3, Raise e).
Proof.
  intros Hc Hwalk Hipre Hfpre Hfile.
  rewrite (compile_assets_found host _ _ _ _ Hc), Hwalk.
  assert (Hitem : process_item host input_dir output_dir compiler_path
                    (root, dirs, fpre ++ file :: fpost) w1
                  = (w3, t2 ++ t3, Raise e)).
  { simpl. now apply for_each_raise_at with (w1 := w2). }
  pose proof (for_each_raise_at ipre ipost (root, dirs, fpre ++ file :: fpost)
                (process_item host input_dir output_dir compiler_path)
                w0 w1 w3 t1 (t2 ++ t3) e Hipre Hitem) as H.
  unfold walk_item in *. rewrite H. reflexivity.
Qed.




End Abort.

(** ** The printed lines *)
Section Log.
Context {World : Type} (host : Host World).
Variables input_dir output_dir compiler_path : string.
Implicit Types (w : World).

Lemma count_app (p : event -> bool) (a b : list event) :
  count p (a ++ b) = (count p a + count p b)%nat.
Proof. unfold count. now rewrite List.filter_app, length_app. Qed.

Lemma count_cons (p : event -> bool) (e : event) (t : list event) :
  count p (e :: t) = ((if p e then 1 else 0) + count p t)%nat.
Proof. unfold count. simpl. destruct (p e); reflexivity. Qed.

Lemma count_nil (p : event -> bool) : count p [] = 0%nat.
Proof. reflexivity. Qed.

Lemma prefix_append (a b : string) : String.prefix a (a +:+ b) = true.
Proof.
  induction a as [|c a IH]; [destruct b; reflexivity|].
  change (String.prefix (String c a) (String c (a +:+ b)) = true).
  simpl. destruct (Ascii.ascii_dec c c); [exact IH | contradiction].
Qed.

Lemma is_compiling_line (rel rel_dst : string) :
  is_compiling (EPrint (compiling_line rel rel_dst)) = true.
Proof. apply prefix_append. Qed.

Lemma is_failed_line (src : string) : is_failed (EPrint (failed_line src)) = true.
Proof. apply prefix_append. Qed.

Lemma is_compiling_failed (src : string) :
  is_compiling (EPrint (failed_line src)) = false.
Proof. reflexivity. Qed.

Lemma is_failed_compiling (rel rel_dst : string) :
  is_failed (EPrint (compiling_line rel rel_dst)) = false.
Proof. reflexivity. Qed.

Lemma balanced_nil : balanced [].
Proof. split; [reflexivity | apply Nat.le_refl]. Qed.

Lemma balanced_app (a b : list event) : balanced a -> balanced b -> balanced (a ++ b).
Proof.
  intros [Ha1 Ha2] [Hb1 Hb2]. unfold balanced. rewrite !count_app. lia.
Qed.

Lemma for_each_balanced {A} (l : list A) (body : A -> M (World := World) unit) :
  (forall x w w' t r, body x w = (w', t, r) -> balanced t) ->
  forall w w' t r, for_each l body w = (w', t, r) -> balanced t.
Proof.
  intros Hb. induction l as [|x l IH]; intros w w' t r Hrun.
  - injection Hrun as <- <- <-. apply balanced_nil.
  - simpl in Hrun. unfold bind in Hrun.
    destruct (body x w) as [[w1 t1] [[]|ex]] eqn:Ex.
    + destruct (for_each l body w1) as [[w2 t2] r2] eqn:El.
      injection Hrun as <- <- <-.
      apply balanced_app; [eapply Hb, Ex | eapply IH, El].
    + injection Hrun as <- <- <-. eapply Hb, Ex.
Qed.

Lemma process_file_balanced (root file : string) w w' t r :
  process_file host input_dir output_dir compiler_path root file w = (w', t, r) ->
  balanced t.
Proof.
  intros Hrun.
  destruct (supported_extensions !! file_ext file) as [out_ext|] eqn:Hext.
  2:{ rewrite process_file_unrecognized in Hrun by (now apply recognized_false).
      injection Hrun as <- <- <-. apply balanced_nil. }
  destruct (Path.relpath (os_getcwd host) (src_path_of root file) input_dir)
    as [rel|] eqn:Hrel.
  2:{ rewrite (process_file_relpath_none host _ _ _ _ _ _ _ Hext Hrel) in Hrun.
      injection Hrun as <- <- <-. apply balanced_nil. }
  destruct (process_file_recognized host input_dir output_dir compiler_path
              root file out_ext rel w Hext Hrel) as (rel_dst & Hdst & Heq).
  rewrite Heq in Hrun. clear Heq.
  destruct (os_makedirs host w _) as [w1|].
  2:{ injection Hrun as <- <- <-. split; vm_compute; lia. }
  cbv zeta in Hrun. unfold compile_branch in Hrun.
  pose proof (is_compiling_line rel rel_dst) as C1.
  pose proof (is_failed_line (src_path_of root file)) as F1.
  pose proof (is_compiling_failed (src_path_of root file)) as C2.
  pose proof (is_failed_compiling rel rel_dst) as F2.
  destruct (os_path_exists host w1 _);
    [destruct (os_path_getmtime host w1 (dst_path_of _ _ _)) as [td|];
     [destruct (os_path_getmtime host w1 (src_path_of _ _)) as [ts|];
      [destruct (ts <=? td)|]|]|];
    try (destruct (subprocess_run host w1 _) as [w2 [c|]]; [destruct (c =? 0)|]);
    injection Hrun as <- <- <-; unfold balanced;
    rewrite ?count_app, ?count_cons, ?count_nil, ?C1, ?C2, ?F1, ?F2;
    simpl; lia.
Qed.

(** X3. In the trace of any run, also one that raises, there are as many
    compiling lines as compiler runs, and no more failure lines than
    compiler runs. *)
Theorem log_matches_runs w0 :
  balanced
    (snd (fst (compile_assets host input_dir output_dir compiler_path w0))).
Proof.
  destruct (compile_assets host input_dir output_dir compiler_path w0)
    as [[wf tr] r] eqn:Hrun. simpl.
  destruct (os_path_exists host w0 compiler_path) eqn:Hc.
  - rewrite (compile_assets_found host _ _ _ _ Hc) in Hrun.
    destruct (for_each _ _ w0) as [[w' t] r'] eqn:E.
    injection Hrun as <- <- <-.
    apply (balanced_app [EExists compiler_path; EWalk input_dir] t).
    + split; vm_compute; lia.
    + eapply for_each_balanced; [|exact E].
      intros [[root dirs] files] w w1 t1 r1 Hb. simpl in Hb.
      eapply for_each_balanced; [|exact Hb].
      intros file. apply process_file_balanced.
  - rewrite (compile_assets_missing host _ _ _ _ Hc) in Hrun.
    injection Hrun as <- <- <-. split; vm_compute; lia.
Qed.

End Log.

(** ** The entry point *)
Section Main.
Context {World : Type} (host : Host World).
Implicit Types (w : World).

Lemma main_unfold (script_file : string) w :
  let root := root_dir_of (os_getcwd host) script_file in
  main host script_file w
  = (let compiler :=
       if os_path_exists host w (compiler_exe root)
       then compiler_exe root else compiler_plain root in
     let '(w', t, r) :=
       compile_assets host (default_input root) (default_output root)
         compiler w in
     (w', EExists (compiler_exe root) :: t, r)).
Proof.
  cbv zeta. unfold main, bind, path_exists.
  fold (root_dir_of (os_getcwd host) script_file).
  set (root := root_dir_of (os_getcwd host) script_file).
  fold (compiler_exe root) (compiler_plain root)
       (default_input root) (default_output root).
  destruct (os_path_exists host w (compiler_exe root)); simpl;
    destruct (compile_assets _ _ _ _ w) as [[w' t] r]; reflexivity.
Qed.

(** X6. When the compiler is at neither default location, the script
    checks both, prints one error naming the path without [.exe], and
    does nothing else. *)
Theorem main_without_compiler (script_file : string) w :
  let root := root_dir_of (os_getcwd host) script_file in
  os_path_exists host w (compiler_exe root) = false ->
  os_path_exists host w (compiler_plain root) = false ->
  main host script_file w
  = (w, [ EExists (compiler_exe root); EExists (compiler_plain root);
          EPrint ("Error: Compiler not found at " +:+ compiler_plain root) ],
     Ok tt).
Proof.
  intros root H1 H2. rewrite main_unfold. fold root. rewrite H1. cbv zeta.
  now rewrite (compile_assets_missing host _ _ _ _ H2).
Qed.







End Main.

(** ** How an iteration on a stale file ends *)
Section Outcome.
Context {World : Type} (host : Host World).
Variables input_dir output_dir compiler_path : string.
Implicit Types (w : World).

Lemma count_check_events (p : event -> bool) (src dst : string) (times : bool) :
  p (EMakedirs (Path.dirname dst)) = false ->
  p (EExists dst) = false ->
  p (EGetmtime dst) = false ->
  p (EGetmtime src) = false ->
  count p (check_events src dst times) = 0%nat.
Proof.
  intros H1 H2 H3 H4. unfold check_events.
  destruct times; rewrite count_app, !count_cons, count_nil;
    rewrite ?H1, ?H2, ?H3, ?H4; reflexivity.
Qed.

(** X9. The iteration on a stale file whose compiler run exits prints
    one compiling line, runs the compiler once, and prints a failure line
    exactly when the return code is not zero; it returns in both cases. *)
Theorem stale_file_lines (root file out_ext rel : string) w w1 w2 c :
  supported_extensions !! file_ext file = Some out_ext ->
  let src := src_path_of root file in
  let dst := dst_path_of output_dir rel out_ext in
  Path.relpath (os_getcwd host) src input_dir = Some rel ->
  os_makedirs host w (Path.dirname dst) = Some w1 ->
  stale host w1 src dst ->
  subprocess_run host w1 [compiler_path; src; dst] = (w2, Exited c) ->
  exists tx,
    process_file host input_dir output_dir compiler_path root file w
    = (w2, tx, Ok tt) /\
    count is_compiling tx = 1%nat /\
    count is_run tx = 1%nat /\
    count is_failed tx = if c =? 0 then 0%nat else 1%nat.
Proof.
  intros Hext src dst Hrel Hmk Hst Hsub.
  destruct (process_file_stale host input_dir output_dir compiler_path
              root file out_ext rel w w1 w2 c Hext Hrel Hmk Hst Hsub)
    as (rel_dst & Hdst & Heq).
  fold src dst in Heq. eexists. split; [exact Heq|].
  pose proof (is_compiling_line rel rel_dst) as C1.
  pose proof (is_failed_line src) as F1.
  pose proof (is_compiling_failed src) as C2.
  pose proof (is_failed_compiling rel rel_dst) as F2.
  rewrite !count_app.
  rewrite !count_check_events by reflexivity.
  unfold run_events. rewrite !count_app, !count_cons, !count_nil.
  rewrite C1, F2. simpl (is_run _). simpl (is_compiling (ERun _)).
  simpl (is_failed (ERun _)).
  destruct (c =? 0); rewrite ?count_cons, ?count_nil, ?C2, ?F1;
    simpl; auto.
Qed.

(** X10. When the compiler cannot be started, the iteration has printed
    the compiling line, prints no failure line and raises [OSError]; the
    files after it in the directory are not processed. *)
Theorem unstartable_compiler_raises (root file out_ext rel : string)
    (dirs post : list string) w w1 w2 :
  supported_extensions !! file_ext file = Some out_ext ->
  let src := src_path_of root file in
  let dst := dst_path_of output_dir rel out_ext in
  Path.relpath (os_getcwd host) src input_dir = Some rel ->
  os_makedirs host w (Path.dirname dst) = Some w1 ->
  stale host w1 src dst ->
  subprocess_run host w1 [compiler_path; src; dst] = (w2, NotStarted) ->
  exists rel_dst,
    Path.relpath (os_getcwd host) dst output_dir = Some rel_dst /\
    process_file host input_dir output_dir compiler_path root file w
    = (w2, check_events src dst (os_path_exists host w1 dst)
           ++ [EPrint (compiling_line rel rel_dst);
               ERun [compiler_path; src; dst]], Raise OSError) /\
    process_item host input_dir output_dir compiler_path
      (root, dirs, file :: post) w
    = process_file host input_dir output_dir compiler_path root file w.
Proof.
  intros Hext src dst Hrel Hmk Hst Hsub.
  destruct (process_file_recognized host input_dir output_dir compiler_path
              root file out_ext rel w Hext Hrel) as (rel_dst & Hdst & Heq).
  fold src dst in Heq, Hdst. exists rel_dst. split; [exact Hdst|].
  assert (Hp : process_file host input_dir output_dir compiler_path root file w
               = (w2, check_events src dst (os_path_exists host w1 dst)
                      ++ [EPrint (compiling_line rel rel_dst);
                          ERun [compiler_path; src; dst]], Raise OSError)).
  { rewrite Heq, Hmk. cbv zeta. unfold compile_branch, check_events.
    destruct (os_path_exists host w1 dst) eqn:Hex.
    - destruct Hst as [Hst|(td & ts & Htd & Hts & Hlt)]; [congruence|].
      rewrite Htd, Hts. destruct (ts <=? td) eqn:Hle; [lia|].
      now rewrite Hsub.
    - now rewrite Hsub. }
  split; [exact Hp|].
  unfold process_item. simpl. unfold bind. now rewrite Hp.
Qed.

End Outcome.

(** ** The content hash *)
Module HashFacts.
Import MD5.










End HashFacts.


(** The digests of RFC 1321 for the empty message, [abc], and a message
    of 80 bytes (two blocks); the digest of a file of [TreeFS.demo]. *)
Example md5_test_suite :
  MD5.hexdigest (MD5.bytes_of "") = "d41d8cd98f00b204e9800998ecf8427e" /\
  MD5.hexdigest (MD5.bytes_of "abc") = "900150983cd24fb0d6963f7d28e17f72" /\
  MD5.hexdigest (MD5.bytes_of
    "12345678901234567890123456789012345678901234567890123456789012345678901234567890")
  = "57edf4a22be3c955ac49da2e2107b67a" /\
  get_hash TreeFS.read_ TreeFS.demo "/in/a.png"
  = Ok "b798abe6e1b1318ee36b0dcb3fb9e4d3" /\
  get_hash TreeFS.read_ TreeFS.demo "/in/missing.png" = Raise OSError.
Proof. repeat split; vm_compute; reflexivity. Qed.

(** ** The further statements at the concrete host *)

Lemma run_stops_at_first_raise_witness :
  compile_assets TreeFS.host "/in" "/out" "/bin/ac" TreeFS.demo_blocked
  = (TreeFS.demo_blocked,
     [EExists "/bin/ac"; EWalk "/in"] ++ [] ++ [] ++ [EMakedirs "/out"],
     Raise OSError).
Proof.
  apply (run_stops_at_first_raise TreeFS.host "/in" "/out" "/bin/ac"
           [] [("/in/sub", [], ["model.OBJ"])] "/in" ["sub"] [] ["a.txt"]
           "a.png" TreeFS.demo_blocked TreeFS.demo_blocked
           TreeFS.demo_blocked TreeFS.demo_blocked [] [] [EMakedirs "/out"]
           OSError);
    vm_compute; reflexivity.
Defined.


Lemma recognized_iff_stem_and_extension_witness :
  Path.has_sep "wall.PNG" = false /\
  recognized "wall.PNG" = true /\
  Path.splitext "wall.PNG" = ("wall", ".PNG") /\
  recognized "..png" = false.
Proof.
  split; [reflexivity|].
  destruct (NameFacts.recognized_iff_stem_and_extension "wall.PNG" eq_refl)
    as [H1 H2].
  split; [|split; [|reflexivity]].
  - apply H1. exists "wall", ".PNG", ".ttex". repeat split; reflexivity.
  - apply (H2 "wall" ".PNG" ".ttex"); reflexivity.
Defined.

Lemma same_stem_same_destination_witness :
  dst_path_of "/out" (Path.sep_join (["sub"] ++ ["a" +:+ ".png"])) ".ttex"
  = dst_path_of "/out" (Path.sep_join (["sub"] ++ ["a" +:+ ".JPG"])) ".ttex" /\
  dst_path_of "/out" (Path.sep_join (["sub"] ++ ["a" +:+ ".png"])) ".ttex"
  = "/out/sub/a.ttex".
Proof.
  destruct (NameFacts.same_stem_same_destination "/out" "a" ".png" ".JPG"
              ".ttex" ["sub"] eq_refl eq_refl eq_refl eq_refl)
    as (_ & _ & H1 & H2).
  split; [exact H1 | exact H2].
Defined.

Lemma main_without_compiler_witness :
  main TreeFS.host "/repo/tools/compile_assets.py" TreeFS.repo_bare
  = (TreeFS.repo_bare,
     [ EExists "/repo/build/tools/asset_compiler/tinygl_ac.exe";
       EExists "/repo/build/tools/asset_compiler/tinygl_ac";
       EPrint "Error: Compiler not found at /repo/build/tools/asset_compiler/tinygl_ac" ],
     Ok tt).
Proof.
  apply (main_without_compiler TreeFS.host "/repo/tools/compile_assets.py"
           TreeFS.repo_bare); reflexivity.
Defined.



Lemma stale_file_lines_witness :
  exists tx w2,
    process_file TreeFS.host "/in" "/out" "/bin/ac" "/in/sub" "bad.jpg"
      TreeFS.demo = (w2, tx, Ok tt) /\
    count is_compiling tx = 1%nat /\
    count is_run tx = 1%nat /\
    count is_failed tx = 1%nat.
Proof.
  edestruct (stale_file_lines TreeFS.host "/in" "/out" "/bin/ac"
               "/in/sub" "bad.jpg" ".ttex" "sub/bad.jpg" TreeFS.demo)
    as (tx & H1 & H2 & H3 & H4).
  - reflexivity.
  - reflexivity.
  - vm_compute. reflexivity.
  - left. reflexivity.
  - vm_compute. reflexivity.
  - exists tx. eexists. split; [exact H1|]. split; [exact H2|].
    split; [exact H3 | exact H4].
Defined.

Lemma unstartable_compiler_raises_witness :
  exists w2 tx,
    process_file TreeFS.host "/in" "/out" "/bin/gone" "/in" "a.png" TreeFS.demo
    = (w2, tx ++ [ EPrint "Compiling: a.png -> a.ttex";
                   ERun ["/bin/gone"; "/in/a.png"; "/out/a.ttex"] ],
       Raise OSError) /\
    process_item TreeFS.host "/in" "/out" "/bin/gone"
      ("/in", ["sub"], ["a.png"; "a.txt"]) TreeFS.demo
    = process_file TreeFS.host "/in" "/out" "/bin/gone" "/in" "a.png"
        TreeFS.demo.
Proof.
  edestruct (unstartable_compiler_raises TreeFS.host "/in" "/out" "/bin/gone"
               "/in" "a.png" ".ttex" "a.png" ["sub"] ["a.txt"] TreeFS.demo)
    as (rel_dst & H0 & H1 & H2).
  - reflexivity.
  - reflexivity.
  - vm_compute. reflexivity.
  - left. reflexivity.
  - vm_compute. reflexivity.
  - injection H0 as <-. eexists _, _. split; [exact H1 | exact H2].
Defined.
